(** * Carbon footprint estimator: the carbon resolution engine and the
      inference-response contract layer

    A shallow embedding of [src/services/carbonService.ts],
    [src/services/llmService.ts], the vision service, the routes with
    their upload middleware and [src/middleware/errorHandler.ts], and the
    properties of the specification checked against it.

    Conventions of the embedding.
    - A JavaScript string is a Rocq [string]; its characters are read as the
      code units 0..255 (ISO-8859-1), on which [toLowerCase], the regular
      expression classes and [trim] are written out.
    - A JavaScript number is an element of a type [num] carrying the
      operations the code uses ([JsNumber]).  The arithmetic of the code
      is the instance [binary64], IEEE-754 double precision, and the
      statements about numbers are made there or for every instance.
      A second instance, [exact], is rational arithmetic without rounding
      error: it is not the arithmetic of the code, and serves only to set
      the decimal value of a few examples beside the double.
    - A thrown exception is a result in a sum or option type. *)

From Stdlib Require Import Bool Ascii String List ZArith QArith Qround Floats Lia.
Import ListNotations.

Open Scope string_scope.

(* ================================================================== *)
(** ** Strings as JavaScript sees them *)

Module JsString.

Definition code (c : ascii) : N := N_of_ascii c.

(** Upper-case letters of the first 256 code points: A-Z, and U+00C0 to
    U+00DE without the multiplication sign U+00D7. *)
Definition is_upper (c : ascii) : bool :=
  let n := code c in
  ((65 <=? n) && (n <=? 90) ||
   (192 <=? n) && (n <=? 222) && negb (n =? 215))%N.

Definition lower_char (c : ascii) : ascii :=
  if is_upper c then ascii_of_N (code c + 32) else c.

(** [String.prototype.toLowerCase] *)
Fixpoint toLowerCase (s : string) : string :=
  match s with
  | EmptyString => EmptyString
  | String c s' => String (lower_char c) (toLowerCase s')
  end.

(** [s] begins with [t]. *)
Fixpoint starts_with (s t : string) {struct t} : bool :=
  match t with
  | EmptyString => true
  | String c t' =>
      match s with
      | EmptyString => false
      | String d s' => Ascii.eqb c d && starts_with s' t'
      end
  end.

(** [String.prototype.includes]: [t] occurs in [s] as a substring. *)
Fixpoint includes (s t : string) : bool :=
  if starts_with s t then true
  else match s with
       | EmptyString => false
       | String _ s' => includes s' t
       end.

(** The class [\s], which is also what [trim] removes: tab, line feed,
    vertical tab, form feed, carriage return, space, no-break space. *)
Definition is_space (c : ascii) : bool :=
  let n := code c in
  ((9 <=? n) && (n <=? 13) || (n =? 32) || (n =? 160))%N.

(** The class [a-z]. *)
Definition is_az (c : ascii) : bool :=
  let n := code c in ((97 <=? n) && (n <=? 122))%N.

(** The class [\d]. *)
Definition is_digit (c : ascii) : bool :=
  let n := code c in ((48 <=? n) && (n <=? 57))%N.

Definition is_empty (s : string) : bool :=
  match s with EmptyString => true | _ => false end.

Fixpoint trimStart (s : string) : string :=
  match s with
  | EmptyString => EmptyString
  | String c s' => if is_space c then trimStart s' else s
  end.

Fixpoint trimEnd (s : string) : string :=
  match s with
  | EmptyString => EmptyString
  | String c s' =>
      let r := trimEnd s' in
      if is_space c && is_empty r then EmptyString else String c r
  end.

(** [String.prototype.trim] *)
Definition trim (s : string) : string := trimStart (trimEnd s).

(** [s.replace(/[^a-z\s]/g, '')]: keep the characters of the class. *)
Fixpoint keep (p : ascii -> bool) (s : string) : string :=
  match s with
  | EmptyString => EmptyString
  | String c s' => if p c then String c (keep p s') else keep p s'
  end.

(** [s.replace(/s$/, '')]: drop one final "s". *)
Fixpoint strip_final_s (s : string) : string :=
  match s with
  | EmptyString => EmptyString
  | String c s' =>
      match s' with
      | EmptyString => if Ascii.eqb c "s" then EmptyString else s
      | String _ _ => String c (strip_final_s s')
      end
  end.

(** The last character, when there is one. *)
Fixpoint last_char (s : string) : option ascii :=
  match s with
  | EmptyString => None
  | String c s' =>
      match s' with
      | EmptyString => Some c
      | String _ _ => last_char s'
      end
  end.

(** The longest prefix of digits, and what follows it. *)
Fixpoint span_digits (s : string) : string * string :=
  match s with
  | EmptyString => (EmptyString, EmptyString)
  | String c s' =>
      if is_digit c
      then let (ds, rest) := span_digits s' in (String c ds, rest)
      else (EmptyString, s)
  end.

(** [s.match(/(\d+(?:\.\d+)?)/)]: the leftmost match, as its integer
    digits and its fraction digits (empty when the optional group does
    not take part). *)
Fixpoint match_number (s : string) : option (string * string) :=
  match s with
  | EmptyString => None
  | String c s' =>
      if is_digit c then
        let (ds, rest) := span_digits s in
        match rest with
        | String "." r => Some (ds, fst (span_digits r))
        | _ => Some (ds, EmptyString)
        end
      else match_number s'
  end.

Definition digit_val (c : ascii) : Z := Z.of_N (code c - 48).

Fixpoint digits_val (acc : Z) (s : string) : Z :=
  match s with
  | EmptyString => acc
  | String c s' => digits_val (10 * acc + digit_val c) s'
  end.

Fixpoint pow10 (n : nat) : positive :=
  match n with
  | O => 1
  | S n' => 10 * pow10 n'
  end.

(** The mathematical value of the decimal text [ds.fs]. *)
Definition decimal_value (ds fs : string) : Q :=
  Qmake (digits_val 0 (ds ++ fs)) (pow10 (String.length fs)).

End JsString.
Import JsString.

(* ================================================================== *)
(** ** Numbers *)

(** The operations on numbers that the engine uses. *)
Class JsNumber (num : Type) : Type := {
  lit : Q -> num;               (* the Number of a decimal literal or text *)
  NaN : num;
  add : num -> num -> num;
  mul : num -> num -> num;
  div : num -> num -> num;
  lt : num -> num -> bool;      (* [a < b] *)
  num_eq : num -> num -> bool;  (* [a === b] *)
  Math_round : num -> num;
  Math_max : num -> num -> num;
  Math_min : num -> num -> num
}.

(** *** Exact arithmetic: rationals in lowest terms, and NaN

    An idealisation, for comparison: no JavaScript engine computes this
    way, and what holds here need not hold of the code. *)

Inductive exact : Type :=
| Fin (q : Q)
| ENaN.

Module Exact.

Definition lift2 (f : Q -> Q -> Q) (a b : exact) : exact :=
  match a, b with
  | Fin x, Fin y => Fin (Qred (f x y))
  | _, _ => ENaN
  end.

(** A quotient by zero is an infinity in JavaScript; the engine only
    divides by the literals 100 and 1000, and no infinity is modelled. *)
Definition div (a b : exact) : exact :=
  match a, b with
  | Fin x, Fin y => if Qeq_bool y 0 then ENaN else Fin (Qred (x / y))
  | _, _ => ENaN
  end.

Definition lt (a b : exact) : bool :=
  match a, b with
  | Fin x, Fin y => negb (Qle_bool y x)
  | _, _ => false
  end.

Definition eq (a b : exact) : bool :=
  match a, b with
  | Fin x, Fin y => Qeq_bool x y
  | _, _ => false
  end.

(** [Math.round]: the nearest integer, a tie going towards +infinity. *)
Definition round (a : exact) : exact :=
  match a with
  | Fin x => Fin (inject_Z (Qfloor (x + (1 # 2))))
  | ENaN => ENaN
  end.

Definition max (a b : exact) : exact :=
  match a, b with
  | Fin x, Fin y => if Qle_bool x y then Fin y else Fin x
  | _, _ => ENaN
  end.

Definition min (a b : exact) : exact :=
  match a, b with
  | Fin x, Fin y => if Qle_bool x y then Fin x else Fin y
  | _, _ => ENaN
  end.

End Exact.

#[export] Instance exact_number : JsNumber exact := {
  lit q := Fin (Qred q);
  NaN := ENaN;
  add := Exact.lift2 Qplus;
  mul := Exact.lift2 Qmult;
  div := Exact.div;
  lt := Exact.lt;
  num_eq := Exact.eq;
  Math_round := Exact.round;
  Math_max := Exact.max;
  Math_min := Exact.min
}.

(** *** IEEE-754 binary64, the arithmetic of the running engine *)

Module Binary64.

(** The double nearest to the rational [q]: the value of a numeric
    literal, of [parseFloat] and of a JSON number. *)
Definition of_Q (q : Q) : float :=
  match Qnum q with
  | Z0 => PrimFloat.zero
  | Zpos n =>
      SF2Prim (SFdiv prec emax (S754_finite false n 0)
                               (S754_finite false (Qden q) 0))
  | Zneg n =>
      SF2Prim (SFdiv prec emax (S754_finite true n 0)
                               (S754_finite false (Qden q) 0))
  end.

Definition of_Z (z : Z) : float :=
  SF2Prim (binary_normalize prec emax z 0 false).

(** [Math.round]: a finite [x = m * 2^e] with [e < 0] goes to
    [floor (x + 1/2)], computed on the integers; every other double is
    an integer, an infinity or NaN and is returned as it is. *)
Definition round (x : float) : float :=
  match Prim2SF x with
  | S754_finite s m e =>
      if (e <? 0)%Z then
        let k := Z.opp e in
        let m2 := (2 * (if s then Z.neg m else Z.pos m))%Z in
        of_Z ((m2 + 2 ^ k) / 2 ^ (k + 1))
      else x
  | _ => x
  end.

Definition max (a b : float) : float :=
  if PrimFloat.is_nan a || PrimFloat.is_nan b then PrimFloat.nan
  else if PrimFloat.ltb a b then b else a.

Definition min (a b : float) : float :=
  if PrimFloat.is_nan a || PrimFloat.is_nan b then PrimFloat.nan
  else if PrimFloat.ltb b a then b else a.

End Binary64.

#[export] Instance binary64 : JsNumber float := {
  lit := Binary64.of_Q;
  NaN := PrimFloat.nan;
  add := PrimFloat.add;
  mul := PrimFloat.mul;
  div := PrimFloat.div;
  lt := PrimFloat.ltb;
  num_eq := PrimFloat.eqb;
  Math_round := Binary64.round;
  Math_max := Binary64.max;
  Math_min := Binary64.min
}.

(* ================================================================== *)
(** ** Data model ([types.ts]) *)

(** An entry of the emissions reference table. *)
Record EmissionsFactor : Type := {
  carbon_per_kg : Q;
  factor_category : string
}.

(** What the inference step hands over for one ingredient. *)
Record RawIngredient : Type := {
  raw_name : string;
  estimated_quantity : string;
  raw_category : string
}.

Definition raw (n q c : string) : RawIngredient :=
  {| raw_name := n; estimated_quantity := q; raw_category := c |}.

(** One line of the breakdown.  [category] is [None] when the property is
    [undefined]. *)
Record Ingredient (num : Type) : Type := {
  name : string;
  carbon_kg : num;
  quantity : string;
  category : option string
}.
Arguments name {num} _.
Arguments carbon_kg {num} _.
Arguments quantity {num} _.
Arguments category {num} _.

Definition is_nil {A : Type} (l : list A) : bool :=
  match l with [] => true | _ => false end.

(** [LLMResponse] and [VisionResponse] *)
Record LLMResponse : Type := {
  ingredients : list RawIngredient;
  confidence : Q
}.

Record VisionResponse : Type := {
  dish_name : string;
  vision_ingredients : list RawIngredient;
  vision_confidence : Q
}.

(* ================================================================== *)
(** ** JavaScript objects used as tables *)

(** The own property [k] of an object literal, entries in declaration
    order. *)
Fixpoint own_property {A : Type} (o : list (string * A)) (k : string)
  : option A :=
  match o with
  | [] => None
  | (k', v) :: o' => if String.eqb k k' then Some v else own_property o' k
  end.

(** The properties every object literal inherits from [Object.prototype]. *)
Definition Object_prototype : list string :=
  [ "constructor"; "__defineGetter__"; "__defineSetter__"; "hasOwnProperty";
    "__lookupGetter__"; "__lookupSetter__"; "isPrototypeOf";
    "propertyIsEnumerable"; "toString"; "valueOf"; "__proto__";
    "toLocaleString" ].

Definition inherited (k : string) : bool :=
  existsb (String.eqb k) Object_prototype.

(* ================================================================== *)
(** ** The carbon service ([carbonService.ts]) *)

Definition factor (c : Q) (cat : string) : EmissionsFactor :=
  {| carbon_per_kg := c; factor_category := cat |}.

Definition CARBON_DATA : list (string * EmissionsFactor) :=
  [ ("beef", factor 60.0 "meat");
    ("lamb", factor 39.2 "meat");
    ("pork", factor 12.1 "meat");
    ("chicken", factor 6.9 "meat");
    ("turkey", factor 10.9 "meat");
    ("fish", factor 6.1 "seafood");
    ("salmon", factor 11.9 "seafood");
    ("tuna", factor 6.1 "seafood");
    ("shrimp", factor 18.2 "seafood");
    ("eggs", factor 4.2 "dairy");
    ("cheese", factor 13.5 "dairy");
    ("milk", factor 3.2 "dairy");
    ("yogurt", factor 2.2 "dairy");
    ("butter", factor 23.8 "dairy");
    ("rice", factor 2.7 "grains");
    ("wheat", factor 1.4 "grains");
    ("bread", factor 1.6 "grains");
    ("pasta", factor 1.4 "grains");
    ("potatoes", factor 0.5 "vegetables");
    ("quinoa", factor 1.8 "grains");
    ("oats", factor 1.6 "grains");
    ("tomatoes", factor 2.1 "vegetables");
    ("onions", factor 0.5 "vegetables");
    ("carrots", factor 0.4 "vegetables");
    ("broccoli", factor 4.0 "vegetables");
    ("spinach", factor 2.0 "vegetables");
    ("lettuce", factor 1.3 "vegetables");
    ("bell peppers", factor 2.8 "vegetables");
    ("mushrooms", factor 3.3 "vegetables");
    ("beans", factor 2.0 "legumes");
    ("lentils", factor 0.9 "legumes");
    ("chickpeas", factor 1.0 "legumes");
    ("almonds", factor 8.8 "nuts");
    ("peanuts", factor 3.2 "nuts");
    ("olive oil", factor 5.4 "oils");
    ("vegetable oil", factor 3.8 "oils");
    ("coconut oil", factor 6.4 "oils");
    ("spices", factor 2.0 "seasonings");
    ("herbs", factor 1.5 "seasonings");
    ("garlic", factor 0.6 "seasonings");
    ("ginger", factor 0.8 "seasonings");
    ("sugar", factor 1.8 "sweeteners");
    ("honey", factor 1.4 "sweeteners");
    ("apples", factor 0.4 "fruits");
    ("bananas", factor 0.7 "fruits");
    ("oranges", factor 0.4 "fruits");
    ("lemons", factor 0.5 "fruits");
    ("coconut", factor 1.7 "fruits") ].

(** What [findCarbonData] returns at run time: an emissions factor, or,
    when the direct lookup reaches [Object.prototype], the inherited
    member, an object with neither [carbon_per_kg] nor [category]. *)
Inductive Resolved : Type :=
| Factor (f : EmissionsFactor)
| Inherited (member : string).

(** [CARBON_DATA[k]]: an own entry, else an inherited member, else
    [undefined]. *)
Definition CARBON_DATA_get (k : string) : option Resolved :=
  match own_property CARBON_DATA k with
  | Some f => Some (Factor f)
  | None => if inherited k then Some (Inherited k) else None
  end.

(** [normalizeIngredientName] *)
Definition normalizeIngredientName (name : string) : string :=
  trim (keep (fun c => is_az c || is_space c)
             (strip_final_s (toLowerCase name))).

Definition categoryKeywords : list (string * list string) :=
  [ ("meat", ["meat"; "beef"; "pork"; "lamb"; "chicken"; "turkey"; "duck";
              "bacon"; "ham"; "sausage"]);
    ("seafood", ["fish"; "salmon"; "tuna"; "cod"; "shrimp"; "crab";
                 "lobster"; "seafood"; "anchovy"]);
    ("dairy", ["milk"; "cheese"; "yogurt"; "cream"; "butter"; "dairy"]);
    ("vegetables", ["vegetable"; "carrot"; "broccoli"; "spinach"; "lettuce";
                    "tomato"; "onion"; "pepper"; "cucumber"]);
    ("fruits", ["fruit"; "apple"; "banana"; "orange"; "berry"; "grape";
                "mango"; "pineapple"]);
    ("grains", ["rice"; "wheat"; "bread"; "pasta"; "cereal"; "oat"; "barley";
                "quinoa"]);
    ("legumes", ["bean"; "lentil"; "pea"; "chickpea"; "soy"]);
    ("nuts", ["nut"; "almond"; "walnut"; "peanut"; "cashew"; "pecan"]);
    ("oils", ["oil"; "fat"; "lard"]);
    ("seasonings", ["spice"; "herb"; "salt"; "pepper"; "garlic"; "ginger";
                    "seasoning"]) ].

(** [inferCategory]: the first category one of whose keywords occurs in
    the name; [None] is [null]. *)
Definition inferCategory (ingredientName : string) : option string :=
  match find (fun ck => existsb (includes ingredientName) (snd ck))
             categoryKeywords with
  | Some (category, _) => Some category
  | None => None
  end.

Definition categoryFallbacks : list (string * Q) :=
  [ ("meat", 15.0); ("seafood", 8.0); ("dairy", 8.0); ("vegetables", 2.0);
    ("fruits", 0.6); ("grains", 1.5); ("legumes", 1.5); ("nuts", 6.0);
    ("oils", 4.5); ("seasonings", 1.8) ]%Q.

Definition ultimate_fallback : EmissionsFactor := factor 2.5 "unknown".

(** The partial match of [findCarbonData]: the first entry whose key
    occurs in the name or in which the name occurs. *)
Definition partial_match (ingredientName : string)
  : option (string * EmissionsFactor) :=
  find (fun kv => includes ingredientName (fst kv)
                  || includes (fst kv) ingredientName) CARBON_DATA.

(** [findCarbonData].  [inferCategory] only returns keys of
    [categoryFallbacks] ([inferCategory_has_fallback]), so that lookup
    never reaches the prototype. *)
Definition findCarbonData (ingredientName : string) : Resolved :=
  match CARBON_DATA_get ingredientName with
  | Some r => r
  | None =>
      match partial_match ingredientName with
      | Some (_, value) => Factor value
      | None =>
          match inferCategory ingredientName with
          | Some inferredCategory =>
              match own_property categoryFallbacks inferredCategory with
              | Some c =>
                  if Qeq_bool c 0 then Factor ultimate_fallback
                  else Factor (factor c inferredCategory)
              | None => Factor ultimate_fallback
              end
          | None => Factor ultimate_fallback
          end
      end
  end.

Section Engine.

Context {num : Type} `{JsNumber num}.

(** [parseQuantityToKg] *)
Definition parseQuantityToKg (quantity : string) : num :=
  let normalizedQuantity := toLowerCase quantity in
  let baseAmount :=
    match match_number normalizedQuantity with
    | Some (ds, fs) => lit (decimal_value ds fs)
    | None => lit 0.1
    end in
  let has := includes normalizedQuantity in
  if has "kg" then baseAmount
  else if has "g" && negb (has "kg") then div baseAmount (lit 1000)
  else if has "lb" || has "pound" then mul baseAmount (lit 0.453592)
  else if has "oz" || has "ounce" then mul baseAmount (lit 0.0283495)
  else if has "cup" then mul baseAmount (lit 0.24)
  else if has "tbsp" || has "tablespoon" then mul baseAmount (lit 0.015)
  else if has "tsp" || has "teaspoon" then mul baseAmount (lit 0.005)
  else if has "small" then lit 0.05
  else if has "medium" then lit 0.1
  else if has "large" then lit 0.2
  else if has "piece" || has "item" then lit 0.1
  else Math_max (lit 0.05) (Math_min (mul baseAmount (lit 0.1)) (lit 0.5)).

(** [carbonData.carbon_per_kg] as a number; [undefined] counts as NaN in
    a product. *)
Definition per_kg (r : Resolved) : num :=
  match r with
  | Factor f => lit (carbon_per_kg f)
  | Inherited _ => NaN
  end.

(** [carbonData.category] *)
Definition category_of (r : Resolved) : option string :=
  match r with
  | Factor f => Some (factor_category f)
  | Inherited _ => None
  end.

(** [Math.round(x * 100) / 100] *)
Definition round2 (x : num) : num :=
  div (Math_round (mul x (lit 100))) (lit 100).

(** The body of the [map] in [calculateCarbonFootprint]. *)
Definition resolve (ingredient : RawIngredient) : Ingredient num :=
  let normalizedName := normalizeIngredientName (raw_name ingredient) in
  let carbonData := findCarbonData normalizedName in
  let estimatedWeight := parseQuantityToKg (estimated_quantity ingredient) in
  {| name := raw_name ingredient;
     carbon_kg := round2 (mul (per_kg carbonData) estimatedWeight);
     quantity := estimated_quantity ingredient;
     category := category_of carbonData |}.

(** [calculateCarbonFootprint] *)
Definition calculateCarbonFootprint (ingredientNames : list RawIngredient)
  : list (Ingredient num) :=
  map resolve ingredientNames.

(** [getTotalCarbonFootprint] *)
Definition getTotalCarbonFootprint (l : list (Ingredient num)) : num :=
  let total := fold_left (fun sum ingredient => add sum (carbon_kg ingredient))
                         l (lit 0) in
  round2 total.

End Engine.

(* ================================================================== *)
(** ** Parsed JSON payloads *)

(** What [JSON.parse] returns.  A number carries the value of its decimal
    text; an object carries its own properties, keys distinct. *)
#[warnings="-register-all"]
Inductive json : Type :=
| JNull
| JBool (b : bool)
| JNum (q : Q)
| JStr (s : string)
| JArr (items : list json)
| JObj (props : list (string * json)).

(** [v.k] for the keys the services read, none of which is inherited from
    a prototype: the own property of an object, [undefined] ([None]) on
    every other value.  On [null] the access throws; the callers below
    treat that case themselves. *)
Definition get (v : json) (k : string) : option json :=
  match v with
  | JObj props => own_property props k
  | _ => None
  end.

Definition json_of_raw (x : RawIngredient) : json :=
  JObj [ ("name", JStr (raw_name x));
         ("estimated_quantity", JStr (estimated_quantity x));
         ("category", JStr (raw_category x)) ].

Definition json_of_LLMResponse (r : LLMResponse) : json :=
  JObj [ ("ingredients", JArr (map json_of_raw (ingredients r)));
         ("confidence", JNum (confidence r)) ].

Definition json_of_VisionResponse (r : VisionResponse) : json :=
  JObj [ ("dish_name", JStr (dish_name r));
         ("ingredients", JArr (map json_of_raw (vision_ingredients r)));
         ("confidence", JNum (vision_confidence r)) ].

(** The result of a validator: it returns, or it throws. *)
Inductive Validation : Type :=
| Valid
| Throws (message : string).

(** How a completion request for one dish ends: the call fails, the
    message has no content, the content is not JSON, or it parses. *)
Inductive Completion : Type :=
| CallFails
| NoContent
| NotJson
| Parsed (payload : json).

(** [CarbonEstimate], and the entry the batch route writes for a dish
    whose processing failed. *)
Record CarbonEstimate (num : Type) : Type := {
  dish : string;
  estimated_carbon_kg : num;
  breakdown : list (Ingredient num);
  estimate_confidence : num;
  methodology : string
}.
Arguments dish {num} _.
Arguments estimated_carbon_kg {num} _.
Arguments breakdown {num} _.
Arguments estimate_confidence {num} _.
Arguments methodology {num} _.

Record FailedEstimate (num : Type) : Type := {
  failed_dish : string;
  error : string;
  failed_carbon_kg : num;
  failed_ingredients : list (Ingredient num);
  failed_confidence : num
}.
Arguments failed_dish {num} _.
Arguments error {num} _.
Arguments failed_carbon_kg {num} _.
Arguments failed_ingredients {num} _.
Arguments failed_confidence {num} _.

Inductive BatchItem (num : Type) : Type :=
| Estimated (e : CarbonEstimate num)
| Failed (f : FailedEstimate num).
Arguments Estimated {num} e.
Arguments Failed {num} f.

(** [AppError(message, statusCode)] *)
Record AppError : Type := {
  message : string;
  statusCode : Z
}.

(* ================================================================== *)
(** ** The inference services ([llmService.ts], the vision service) *)

Definition pizza_response : LLMResponse :=
  {| ingredients :=
       [ raw "wheat flour" "150g" "grains";
         raw "mozzarella cheese" "100g" "dairy";
         raw "tomato sauce" "80g" "vegetables";
         raw "olive oil" "15g" "oils";
         raw "herbs" "5g" "seasonings" ];
     confidence := 0.75 |}.

Definition burger_response : LLMResponse :=
  {| ingredients :=
       [ raw "beef" "150g" "meat";
         raw "bread" "80g" "grains";
         raw "cheese" "30g" "dairy";
         raw "lettuce" "20g" "vegetables";
         raw "tomatoes" "30g" "vegetables";
         raw "onions" "15g" "vegetables" ];
     confidence := 0.8 |}.

Definition pasta_response : LLMResponse :=
  {| ingredients :=
       [ raw "pasta" "100g" "grains";
         raw "tomato sauce" "120g" "vegetables";
         raw "olive oil" "15g" "oils";
         raw "garlic" "5g" "seasonings";
         raw "herbs" "3g" "seasonings" ];
     confidence := 0.7 |}.

Definition generic_response : LLMResponse :=
  {| ingredients :=
       [ raw "mixed ingredients" "200g" "unknown";
         raw "cooking oil" "10g" "oils";
         raw "seasonings" "5g" "seasonings" ];
     confidence := 0.5 |}.

Definition fallbackResponses : list (string * LLMResponse) :=
  [ ("pizza", pizza_response);
    ("burger", burger_response);
    ("pasta", pasta_response) ].

(** [getFallbackResponse] *)
Definition getFallbackResponse (dishName : string) : LLMResponse :=
  let normalizedDish := toLowerCase dishName in
  match find (fun pr => includes normalizedDish (fst pr)) fallbackResponses with
  | Some (_, response) => response
  | None => generic_response
  end.

(** [getFallbackVisionResponse] *)
Definition getFallbackVisionResponse : VisionResponse :=
  {| dish_name := "Unknown Dish";
     vision_ingredients :=
       [ raw "mixed ingredients" "200g" "unknown";
         raw "cooking oil" "10g" "oils";
         raw "seasonings" "5g" "seasonings" ];
     vision_confidence := 0.3 |}.

Section Services.

Context {num : Type} `{JsNumber num}.

(** [ToBoolean]: what [!v] negates. *)
Definition truthy (v : json) : bool :=
  match v with
  | JNull => false
  | JBool b => b
  | JNum q => negb (num_eq (lit q) (lit 0))
  | JStr s => negb (is_empty s)
  | JArr _ => true
  | JObj _ => true
  end.

(** [!v.k] *)
Definition missing (v : json) (k : string) : bool :=
  match get v k with
  | Some x => negb (truthy x)
  | None => true
  end.

(** [typeof c !== 'number' || c < 0 || c > 1] *)
Definition bad_confidence (c : option json) : bool :=
  match c with
  | Some (JNum q) => lt (lit q) (lit 0) || lt (lit 1) (lit q)
  | _ => true
  end.

(** The loop over the ingredients, shared by the two validators.  Reading
    a property of [null] throws a TypeError. *)
Fixpoint check_ingredients (items : list json) : Validation :=
  match items with
  | [] => Valid
  | ingredient :: rest =>
      match ingredient with
      | JNull => Throws "TypeError: Cannot read properties of null"
      | _ =>
          if missing ingredient "name"
             || missing ingredient "estimated_quantity"
             || missing ingredient "category"
          then Throws "Each ingredient must have name, estimated_quantity, and category"
          else check_ingredients rest
      end
  end.

(** [!response || typeof response !== 'object'] *)
Definition not_an_object (response : json) : bool :=
  match response with
  | JArr _ => false
  | JObj _ => false
  | _ => true
  end.

(** [validateLLMResponse] *)
Definition validateLLMResponse (response : json) : Validation :=
  if not_an_object response then Throws "Invalid response format"
  else match get response "ingredients" with
       | Some (JArr items) =>
           if bad_confidence (get response "confidence")
           then Throws "Confidence must be a number between 0 and 1"
           else check_ingredients items
       | _ => Throws "Ingredients must be an array"
       end.

(** [validateVisionResponse] *)
Definition validateVisionResponse (response : json) : Validation :=
  if not_an_object response then Throws "Invalid response format"
  else match get response "dish_name" with
       | Some (JStr (String _ _)) =>
           match get response "ingredients" with
           | Some (JArr items) =>
               if bad_confidence (get response "confidence")
               then Throws "Confidence must be a number between 0 and 1"
               else check_ingredients items
           | _ => Throws "Ingredients must be an array"
           end
       | _ => Throws "dish_name must be a string"
       end.

(** [analyzeDish]: every failure inside the [try] ends in the fallback. *)
Definition analyzeDish (completion : Completion) (dishName : string) : json :=
  match completion with
  | Parsed parsedResponse =>
      match validateLLMResponse parsedResponse with
      | Valid => parsedResponse
      | Throws _ => json_of_LLMResponse (getFallbackResponse dishName)
      end
  | _ => json_of_LLMResponse (getFallbackResponse dishName)
  end.

(** [analyzeImage] *)
Definition analyzeImage (completion : Completion) : json :=
  match completion with
  | Parsed parsedResponse =>
      match validateVisionResponse parsedResponse with
      | Valid => parsedResponse
      | Throws _ => json_of_VisionResponse getFallbackVisionResponse
      end
  | _ => json_of_VisionResponse getFallbackVisionResponse
  end.

(** The body of the [map] of [calculateCarbonFootprint] on a parsed
    ingredient: [name.toLowerCase()] and [quantity.toLowerCase()] throw a
    TypeError ([None]) on anything but a string.  The category is passed
    on as it is and never read, so what stands for one that is no string
    does not matter. *)
Definition resolve_parsed (ingredient : json) : option (Ingredient num) :=
  match get ingredient "name", get ingredient "estimated_quantity" with
  | Some (JStr n), Some (JStr q) =>
      let c := match get ingredient "category" with
               | Some (JStr c) => c
               | _ => EmptyString
               end in
      Some (resolve (raw n q c))
  | _, _ => None
  end.

(** [calculateCarbonFootprint] on a parsed array. *)
Fixpoint calculateCarbonFootprint_parsed (items : list json)
  : option (list (Ingredient num)) :=
  match items with
  | [] => Some []
  | ingredient :: rest =>
      match resolve_parsed ingredient with
      | Some i =>
          match calculateCarbonFootprint_parsed rest with
          | Some resolved => Some (i :: resolved)
          | None => None
          end
      | None => None
      end
  end.

(** The work of the routes on one dish, after the name was trimmed:
    [None] when it throws.  [analyzeDish] returns an object with an array
    of ingredients and a numeric confidence ([analyzeDish_shape]). *)
Definition estimate_dish (completion : Completion) (sanitizedDish : string)
  : option (CarbonEstimate num) :=
  let llmResponse := analyzeDish completion sanitizedDish in
  match get llmResponse "ingredients", get llmResponse "confidence" with
  | Some (JArr items), Some (JNum c) =>
      match calculateCarbonFootprint_parsed items with
      | Some ingredients =>
          Some {| dish := sanitizedDish;
                  estimated_carbon_kg := getTotalCarbonFootprint ingredients;
                  breakdown := ingredients;
                  estimate_confidence := lit c;
                  methodology :=
                    "LLM ingredient inference + carbon database lookup" |}
      | None => None
      end
  | _, _ => None
  end.

(** The formatting of one settled promise of the batch route. *)
Definition format_result (dish : string) (result : option (CarbonEstimate num))
  : BatchItem num :=
  match result with
  | Some value => Estimated value
  | None =>
      Failed {| failed_dish := dish;
                error := "Failed to process dish";
                failed_carbon_kg := lit 0;
                failed_ingredients := [];
                failed_confidence := lit 0 |}
  end.

(** The dishes with their positions: the [index] of [map]. *)
Fixpoint indexed {A : Type} (i : nat) (l : list A) : list (nat * A) :=
  match l with
  | [] => []
  | x :: l' => (i, x) :: indexed (S i) l'
  end.

(** [POST /estimate/batch] on an array of strings; [llm i] is how the
    completion request for the dish at position [i] ends. *)
Definition estimate_batch (llm : nat -> Completion) (dishes : list string)
  : AppError + list (BatchItem num) :=
  if is_nil dishes then
    inl {| message := "Dishes array is required and cannot be empty";
           statusCode := 400 |}
  else if (10 <? length dishes)%nat then
    inl {| message := "Maximum 10 dishes allowed per batch request";
           statusCode := 400 |}
  else if existsb (fun dish => is_empty dish || is_empty (trim dish)) dishes then
    inl {| message := "Each dish must be a non-empty string";
           statusCode := 400 |}
  else
    inr (map (fun id => format_result (snd id)
                          (estimate_dish (llm (fst id)) (trim (snd id))))
             (indexed 0 dishes)).

(** The completions after which [analyzeDish] substitutes the fallback. *)
Definition rejected (completion : Completion) : bool :=
  match completion with
  | Parsed payload =>
      match validateLLMResponse payload with
      | Valid => false
      | Throws _ => true
      end
  | _ => true
  end.

(** The item the batch route writes at one position. *)
Definition batch_item (llm : nat -> Completion) (i : nat) (d : string)
  : BatchItem num :=
  format_result d (estimate_dish (llm i) (trim d)).

End Services.

(* ================================================================== *)
(** ** The statistics of the table ([getCarbonDataStats]) *)

(** [new Set(l)], as the list of its elements in insertion order: an
    element is added at the end unless it is there already. *)
Definition Set_add (s : list string) (x : string) : list string :=
  if existsb (String.eqb x) s then s else s ++ [x].

Definition new_Set (l : list string) : list string :=
  fold_left Set_add l [].

Record CarbonDataStats : Type := {
  totalIngredients : nat;
  categories : list string
}.

(** [getCarbonDataStats] *)
Definition getCarbonDataStats : CarbonDataStats :=
  {| totalIngredients := length (map fst CARBON_DATA);
     categories :=
       new_Set (map (fun kv => factor_category (snd kv)) CARBON_DATA) |}.

(* ================================================================== *)
(** ** Error handling ([errorHandler.ts]) *)

(** What reaches [errorHandler]: an [AppError], or another [Error] with
    its name and message; [parse_failure] says that it is a [SyntaxError]
    with a [body] property, as the body parser throws. *)
Inductive Thrown : Type :=
| ThrownApp (e : AppError)
| ThrownError (error_name error_message : string) (parse_failure : bool).

(** The body of an error response.  The time stamp is left out; [details]
    is the field added in development, with the stack trace left out. *)
Record ApiError : Type := {
  api_error : string;
  api_message : string;
  api_statusCode : Z;
  details : option string
}.

Definition thrown_message (error : Thrown) : string :=
  match error with
  | ThrownApp e => message e
  | ThrownError _ m _ => m
  end.

(** The status and the message [errorHandler] settles on. *)
Definition error_status_message (error : Thrown) : Z * string :=
  match error with
  | ThrownApp e => (statusCode e, message e)
  | ThrownError name msg parse_failure =>
      if String.eqb name "ValidationError"
      then (400, "Validation Error: " ++ msg)
      else if parse_failure then (400, "Invalid JSON format")
      else if includes msg "File too large" then (413, "File size too large")
      else if includes msg "Unexpected field"
      then (400, "Invalid file field name")
      else if includes msg "OpenAI"
      then (503, "AI service temporarily unavailable")
      else if includes msg "rate limit"
      then (429, "Too many requests. Please try again later.")
      else if includes msg "timeout"
      then (408, "Request timeout. Please try again.")
      else (500, "Internal Server Error")
  end%Z.

(** [errorHandler]: the response body; its [api_statusCode] is also the
    status of the response.  [development] is
    [process.env.NODE_ENV === 'development']. *)
Definition errorHandler (development : bool) (error : Thrown) : ApiError :=
  let (status, msg) := error_status_message error in
  {| api_error := "Request Failed";
     api_message := msg;
     api_statusCode := status;
     details := if development then Some (thrown_message error) else None |}.

(** [notFoundHandler]: what it passes on for the requested URL. *)
Definition notFoundHandler (originalUrl : string) : Thrown :=
  ThrownApp {| message := "Route " ++ originalUrl ++ " not found";
               statusCode := 404 |}.

(** [Array.prototype.join] *)
Fixpoint join (sep : string) (l : list string) : string :=
  match l with
  | [] => EmptyString
  | [x] => x
  | x :: l' => x ++ sep ++ join sep l'
  end.

(** The error a schema throws: [errors], when present, are its issues
    with their messages. *)
Record SchemaError : Type := {
  errors : option (list string);
  schema_message : string
}.

(** The [catch] of [validateRequest]: the error it passes on. *)
Definition validation_failure (error : SchemaError) : AppError :=
  let joined := match errors error with
                | Some messages => join ", " messages
                | None => EmptyString
                end in
  {| message := "Validation failed: "
                ++ (if is_empty joined then schema_message error else joined);
     statusCode := 400 |}.

(* ================================================================== *)
(** ** The routes for one dish and for an image *)

(** How a route handler ends: it sends a body, it throws an [AppError],
    or the carbon service throws a TypeError in it. *)
Inductive Outcome (A : Type) : Type :=
| Responds (body : A)
| Raises (e : AppError)
| Crashes.
Arguments Responds {A} body.
Arguments Raises {A} e.
Arguments Crashes {A}.

(** [estimateRequestSchema] on a body whose [dish] is a string: the
    messages of the bounds that fail. *)
Definition estimateRequestSchema (dish : string) : list string :=
  (if (String.length dish <? 1)%nat then ["Dish name is required"] else [])
  ++ (if (200 <? String.length dish)%nat then ["Dish name too long"] else []).

(** An uploaded file as the image route reads it. *)
Record UploadedFile : Type := {
  size : Z;
  mimetype : string
}.

Record ImageValidation : Type := {
  isValid : bool;
  validation_error : option string
}.

Definition allowedTypes : list string :=
  ["image/jpeg"; "image/jpg"; "image/png"; "image/webp"].

(** [validateImageFile] *)
Definition validateImageFile (file : UploadedFile) : ImageValidation :=
  let maxSize := (10 * 1024 * 1024)%Z in
  if (size file >? maxSize)%Z then
    {| isValid := false;
       validation_error := Some "File size too large. Maximum 10MB allowed." |}
  else if negb (existsb (String.eqb (mimetype file)) allowedTypes) then
    {| isValid := false;
       validation_error :=
         Some "Invalid file type. Only JPEG, PNG, and WebP are allowed." |}
  else {| isValid := true; validation_error := None |}.

(** The [fileFilter] of the upload middleware of the image route. *)
Definition fileFilter (file_mimetype : string) : bool :=
  existsb (String.eqb file_mimetype)
          ["image/jpeg"; "image/jpg"; "image/png"; "image/webp"].

Section Routes.

Context {num : Type} `{JsNumber num}.

(** [POST /estimate], after the body was parsed: schema, trimming, and
    the estimate. *)
Definition estimate_route (completion : Completion) (dish : string)
  : Outcome (CarbonEstimate num) :=
  match estimateRequestSchema dish with
  | _ :: _ =>
      Raises (validation_failure
                {| errors := Some (estimateRequestSchema dish);
                   schema_message := EmptyString |})
  | [] =>
      let sanitizedDish := trim dish in
      if is_empty sanitizedDish then
        Raises {| message := "Dish name cannot be empty"; statusCode := 400 |}
      else match estimate_dish completion sanitizedDish with
           | Some response => Responds response
           | None => Crashes
           end
  end.

(** The handler of [POST /estimate/image], that is the function given to
    [asyncHandler], and nothing of the middleware before it: [file] is the
    [req.file] the handler finds.  The route as a whole is
    [post_estimate_image] below.  [analyzeImage] returns an object with a
    dish name, an array of ingredients and a numeric confidence. *)
Definition estimate_image (file : option UploadedFile) (completion : Completion)
  : Outcome (CarbonEstimate num) :=
  match file with
  | None => Raises {| message := "Image file is required"; statusCode := 400 |}
  | Some f =>
      let validation := validateImageFile f in
      if negb (isValid validation) then
        Raises {| message := match validation_error validation with
                             | Some (String c e) => String c e
                             | _ => "Invalid image file"
                             end;
                  statusCode := 400 |}
      else
        let visionResponse := analyzeImage completion in
        match get visionResponse "ingredients",
              get visionResponse "dish_name",
              get visionResponse "confidence" with
        | Some (JArr items), Some (JStr d), Some (JNum c) =>
            match calculateCarbonFootprint_parsed items with
            | Some ingredients =>
                Responds
                  {| dish := d;
                     estimated_carbon_kg := getTotalCarbonFootprint ingredients;
                     breakdown := ingredients;
                     estimate_confidence := lit c;
                     methodology :=
                       "Computer vision analysis + carbon database lookup" |}
            | None => Crashes
            end
        | _, _, _ => Crashes
        end
  end.

End Routes.

(* ================================================================== *)
(** ** The upload middleware and the image route as a whole *)

(** The file part of a multipart request: the form field it was sent in
    and the file sent, [size] being the number of bytes of the part. *)
Record FilePart : Type := {
  fieldname : string;
  part : UploadedFile
}.

(** [upload.single('image')] with [limits.fileSize] of 10 MB and the
    [fileFilter] of the route.  The middleware sees the head of the part
    first: a part in another field is refused with the error 'Unexpected
    field', then [fileFilter] refuses a type outside its list with an
    [AppError]; only then the bytes are read, and the error 'File too
    large' is passed on when their count reaches the limit.  Otherwise
    the file becomes [req.file]; without a file part [req.file] stays
    undefined. *)
Definition upload_single (request : option FilePart)
  : Thrown + option UploadedFile :=
  match request with
  | None => inr None
  | Some p =>
      if negb (String.eqb (fieldname p) "image") then
        inl (ThrownError "MulterError" "Unexpected field" false)
      else if negb (fileFilter (mimetype (part p))) then
        inl (ThrownApp
               {| message :=
                    "Invalid file type. Only JPEG, PNG, and WebP are allowed.";
                  statusCode := 400 |})
      else if (10 * 1024 * 1024 <=? size (part p))%Z then
        inl (ThrownError "MulterError" "File too large" false)
      else inr (Some (part p))
  end.

(** How a route as a whole ends: a body is sent with status 200, or an
    error reaches [errorHandler]: one of the middleware, an [AppError] of
    the handler, or the TypeError of the carbon service, whose message
    the engine words. *)
Inductive RouteResult (A : Type) : Type :=
| Sent (body : A)
| PassedOn (error : Thrown)
| PassedOnTypeError.
Arguments Sent {A} body.
Arguments PassedOn {A} error.
Arguments PassedOnTypeError {A}.

Section ImageRoute.

Context {num : Type} `{JsNumber num}.

(** [POST /estimate/image]: [upload.single('image')], then the handler
    under [asyncHandler], which passes what the handler throws on to
    [errorHandler]. *)
Definition post_estimate_image (request : option FilePart)
           (completion : Completion) : RouteResult (CarbonEstimate num) :=
  match upload_single request with
  | inl error => PassedOn error
  | inr file =>
      match estimate_image file completion with
      | Responds body => Sent body
      | Raises e => PassedOn (ThrownApp e)
      | Crashes => PassedOnTypeError
      end
  end.

End ImageRoute.

(* ================================================================== *)
(** ** Predicates and sample data of the statements *)

(** A factor fit for use: positive intensity, named category. *)
Definition usable (f : EmissionsFactor) : bool :=
  negb (Qle_bool (carbon_per_kg f) 0) && negb (is_empty (factor_category f)).

(** All characters of [s] satisfy [p]. *)
Fixpoint all_chars (p : ascii -> bool) (s : string) : bool :=
  match s with
  | EmptyString => true
  | String c s' => p c && all_chars p s'
  end.

(** The unit keywords that scale the extracted number, and the size and
    piece words that replace it, in the order of the checks. *)
Definition scaling_units : list string :=
  ["kg"; "g"; "lb"; "pound"; "oz"; "ounce"; "cup"; "tbsp"; "tablespoon";
   "tsp"; "teaspoon"].

Definition size_words : list string :=
  ["small"; "medium"; "large"; "piece"; "item"].

Definition has_any (text : string) (keywords : list string) : bool :=
  existsb (includes text) keywords.


(** The two ingredients of the specification's example: chicken (6.9 per
    kg) at "150g" and rice (2.7 per kg) at "200g". *)
Definition example_dish : list RawIngredient :=
  [raw "Chicken" "150g" "meat"; raw "Rice" "200g" "grains"].

(** How far [x] is from [y], in binary64. *)
Definition distance (x y : float) : float := PrimFloat.abs (PrimFloat.sub x y).

(** A payload whose ingredient has a number for a name. *)
Definition numeric_name_payload : json :=
  JObj [ ("ingredients",
          JArr [ JObj [ ("name", JNum 42);
                        ("estimated_quantity", JStr "200g");
                        ("category", JStr "meat") ] ]);
         ("confidence", JNum 0.9) ].

Definition numeric_name_vision_payload : json :=
  JObj [ ("dish_name", JStr "Stew");
         ("ingredients",
          JArr [ JObj [ ("name", JNum 42);
                        ("estimated_quantity", JStr "200g");
                        ("category", JStr "meat") ] ]);
         ("confidence", JNum 0.9) ].

(** Three dishes; the completion for the second is accepted with a
    numeric ingredient name, on which the estimate throws. *)
Definition sample_llm (i : nat) : Completion :=
  match i with
  | 0%nat => CallFails
  | 1%nat => Parsed numeric_name_payload
  | _ => NoContent
  end.

Definition sample_dishes : list string :=
  ["Pizza Margherita"; " Mystery stew "; "Pasta"].

(** No character of [s] is a letter, in either case. *)
Definition no_letter (s : string) : bool :=
  all_chars (fun c => negb (is_az (lower_char c))) s.

(** The first character, when there is one. *)
Definition first_char (s : string) : option ascii :=
  match s with
  | EmptyString => None
  | String c _ => Some c
  end.

(** The three fields of a typed ingredient are non-empty. *)
Definition nonempty_fields (x : RawIngredient) : bool :=
  negb (is_empty (raw_name x))
  && negb (is_empty (estimated_quantity x))
  && negb (is_empty (raw_category x)).

(** The name and the quantity of a parsed ingredient are strings. *)
Definition string_fields (ingredient : json) : bool :=
  match get ingredient "name", get ingredient "estimated_quantity" with
  | Some (JStr _), Some (JStr _) => true
  | _, _ => false
  end.

(** The value of a property is a non-empty string. *)
Definition nonempty_string (v : option json) : bool :=
  match v with
  | Some (JStr (String _ _)) => true
  | _ => false
  end.

(** The completions after which [analyzeImage] substitutes the fallback. *)
Definition rejected_vision {num : Type} `{JsNumber num}
           (completion : Completion) : bool :=
  match completion with
  | Parsed payload =>
      match validateVisionResponse payload with
      | Valid => false
      | Throws _ => true
      end
  | _ => true
  end.

(** The answers [errorHandler] gives to an error that is neither an
    [AppError] nor a validation error. *)
Definition fixed_error_answers : list (Z * string) :=
  [ (400, "Invalid JSON format");
    (413, "File size too large");
    (400, "Invalid file field name");
    (503, "AI service temporarily unavailable");
    (429, "Too many requests. Please try again later.");
    (408, "Request timeout. Please try again.");
    (500, "Internal Server Error") ]%Z.

(** The entry of the batch result for a dish whose processing failed. *)
Definition failed_item {num : Type} `{JsNumber num} (d : string)
  : BatchItem num :=
  Failed {| failed_dish := d;
            error := "Failed to process dish";
            failed_carbon_kg := lit 0;
            failed_ingredients := [];
            failed_confidence := lit 0 |}.

(** The estimate the text route builds from a typed response. *)
Definition estimate_of {num : Type} `{JsNumber num}
           (d : string) (r : LLMResponse) : CarbonEstimate num :=
  {| dish := d;
     estimated_carbon_kg :=
       getTotalCarbonFootprint (calculateCarbonFootprint (ingredients r));
     breakdown := calculateCarbonFootprint (ingredients r);
     estimate_confidence := lit (confidence r);
     methodology := "LLM ingredient inference + carbon database lookup" |}.

(** No character of [s] is a digit. *)
Definition no_digit (s : string) : bool :=
  all_chars (fun c => negb (is_digit c)) s.

(** A payload with a confidence and no ingredient. *)
Definition empty_payload (c : Q) : json :=
  JObj [ ("ingredients", JArr []); ("confidence", JNum c) ].

(** Signs of doubles, read off their decoding: [nonneg] holds of +0, of
    the positive finite doubles and of +Infinity, [positive_finite] of the
    positive finite doubles. *)
Definition nonneg_sf (x : spec_float) : bool :=
  match x with
  | S754_zero false => true
  | S754_infinity false => true
  | S754_finite false _ _ => true
  | _ => false
  end.

Definition positive_finite_sf (x : spec_float) : bool :=
  match x with
  | S754_finite false _ _ => true
  | _ => false
  end.

Definition nonneg (x : float) : bool := nonneg_sf (Prim2SF x).

Definition positive_finite (x : float) : bool := positive_finite_sf (Prim2SF x).

(** The rational number a finite double stands for; none for NaN and the
    infinities. *)
Definition double_value (x : float) : option Q :=
  match Prim2SF x with
  | S754_zero _ => Some 0
  | S754_finite s m e =>
      let M := cond_Zopp s (Z.pos m) in
      Some (if (e <? 0)%Z then Qmake M (Z.to_pos (2 ^ (- e)))
            else inject_Z (M * 2 ^ e))
  | _ => None
  end.




(** Cheese (13.5 per kg) at "30g". *)
Definition cheese_30g : RawIngredient := raw "Cheese" "30g" "dairy".

(** Rice (2.7 per kg) and sugar (1.8 per kg), each with a carbon_kg that
    rounds to a whole number of tenths. *)
Definition rice_and_sugar : list RawIngredient :=
  [raw "Rice" "37g" "grains"; raw "Sugar" "111 g" "other"].

(* ================================================================== *)
(** ** Properties of the resolution chain *)

Lemma own_property_In {A : Type} (o : list (string * A)) k v :
  own_property o k = Some v -> In (k, v) o.
Proof.
  induction o as [|[k' v'] o IH]; simpl; [discriminate|].
  destruct (String.eqb_spec k k') as [->|_].
  - intros [= ->]. now left.
  - intros Hk. right. now apply IH.
Qed.

Lemma usable_spec f :
  usable f = true -> 0 < carbon_per_kg f /\ factor_category f <> "".
Proof.
  unfold usable. rewrite andb_true_iff, !negb_true_iff.
  intros [Hc Hn]. split.
  - apply Qnot_le_lt. intros Hle. apply Qle_bool_iff in Hle. congruence.
  - intros E. rewrite E in Hn. discriminate.
Qed.

Lemma CARBON_DATA_usable k f : In (k, f) CARBON_DATA -> usable f = true.
Proof.
  intros Hin.
  assert (Hall : forallb (fun kv => usable (snd kv)) CARBON_DATA = true)
    by reflexivity.
  rewrite forallb_forall in Hall. exact (Hall _ Hin).
Qed.

Lemma categoryFallbacks_usable c v :
  In (c, v) categoryFallbacks -> usable (factor v c) = true.
Proof.
  intros Hin.
  assert (Hall : forallb (fun cv => usable (factor (snd cv) (fst cv)))
                         categoryFallbacks = true) by reflexivity.
  rewrite forallb_forall in Hall. exact (Hall _ Hin).
Qed.

(** Every category that can be inferred has a fallback constant. *)
Lemma inferCategory_has_fallback n c :
  inferCategory n = Some c -> own_property categoryFallbacks c <> None.
Proof.
  unfold inferCategory.
  destruct (find _ categoryKeywords) as [[c' ks]|] eqn:Hf; [|discriminate].
  intros [= <-]. apply find_some in Hf as [Hin _].
  assert (Hall : forallb (fun ck => match own_property categoryFallbacks
                                            (fst ck) with
                                    | Some _ => true
                                    | None => false
                                    end) categoryKeywords = true)
    by reflexivity.
  rewrite forallb_forall in Hall. specialize (Hall _ Hin). cbn [fst] in Hall.
  destruct (own_property categoryFallbacks c'); [discriminate|discriminate Hall].
Qed.

(** Away from the members inherited from [Object.prototype] the chain
    always ends in a usable factor. *)
Lemma findCarbonData_usable n :
  inherited n = false ->
  exists f, findCarbonData n = Factor f /\ usable f = true.
Proof.
  intros Hn. unfold findCarbonData, CARBON_DATA_get. rewrite Hn.
  destruct (own_property CARBON_DATA n) as [f|] eqn:Hown.
  { exists f. split; [reflexivity|].
    eapply CARBON_DATA_usable, own_property_In, Hown. }
  destruct (partial_match n) as [[k f]|] eqn:Hp.
  { exists f. split; [reflexivity|].
    apply find_some in Hp as [Hin _]. eapply CARBON_DATA_usable, Hin. }
  destruct (inferCategory n) as [c|]; [|now exists ultimate_fallback].
  destruct (own_property categoryFallbacks c) as [v|] eqn:Hc;
    [|now exists ultimate_fallback].
  destruct (Qeq_bool v 0); [now exists ultimate_fallback|].
  exists (factor v c). split; [reflexivity|].
  eapply categoryFallbacks_usable, own_property_In, Hc.
Qed.

(** C1 (as stated, refuted): the ingredient "xyzfoo123" with category hint
    "meat" does not get the per-category fallback for "meat"; the chain
    gives it the absolute fallback, with category "unknown". *)
Lemma C1_hint_meat_counterexample :
  findCarbonData (normalizeIngredientName "xyzfoo123")
    = Factor (factor 2.5 "unknown")
  /\ findCarbonData (normalizeIngredientName "xyzfoo123")
       <> Factor (factor 15.0 "meat")
  /\ category (resolve (num := float) (raw "xyzfoo123" "100g" "meat"))
       = Some "unknown".
Proof.
  split; [reflexivity|]. split; [|reflexivity].
  intros E. vm_compute in E. discriminate E.
Qed.

(** C1 (amended): when the normalized name has no direct match, no partial
    match and no keyword category, the chain returns the absolute fallback
    (2.5, "unknown") whatever the category hint is; the hint is not
    consulted. *)
Theorem C1_unmatched_name_gets_absolute_fallback :
  forall (n q hint : string),
    CARBON_DATA_get (normalizeIngredientName n) = None ->
    partial_match (normalizeIngredientName n) = None ->
    inferCategory (normalizeIngredientName n) = None ->
    findCarbonData (normalizeIngredientName n) = Factor (factor 2.5 "unknown")
    /\ forall (num : Type) (J : JsNumber num),
         category (resolve (raw n q hint)) = Some "unknown"
         /\ carbon_kg (resolve (raw n q hint))
            = round2 (mul (lit 2.5) (parseQuantityToKg q)).
Proof.
  intros n q hint Hd Hp Hi.
  assert (E : findCarbonData (normalizeIngredientName n)
              = Factor (factor 2.5 "unknown")).
  { unfold findCarbonData. now rewrite Hd, Hp, Hi. }
  split; [exact E|]. intros num J. unfold resolve. simpl. rewrite E.
  split; reflexivity.
Qed.

Lemma C1_unmatched_name_witness :
  findCarbonData (normalizeIngredientName "xyzfoo123")
    = Factor (factor 2.5 "unknown").
Proof.
  apply (C1_unmatched_name_gets_absolute_fallback "xyzfoo123" "100g" "meat");
    reflexivity.
Defined.

(** C2 (the code breaks it): for the ingredient name "constructor" the
    direct lookup reaches [Object.prototype]; what the chain returns is no
    emissions factor, the ingredient's carbon_kg is NaN and its category is
    undefined. *)
Theorem C2_constructor_is_not_resolved :
  findCarbonData (normalizeIngredientName "Constructors")
    = Inherited "constructor"
  /\ (forall f, findCarbonData "constructor" <> Factor f)
  /\ PrimFloat.is_nan
       (carbon_kg (resolve (num := float) (raw "Constructors" "100g" "meat")))
     = true
  /\ category (resolve (num := float) (raw "Constructors" "100g" "meat"))
     = None.
Proof.
  split; [reflexivity|]. split; [|split; reflexivity].
  intros f E. vm_compute in E. discriminate E.
Qed.

(** C10: two ingredient lists that differ only in the category hints give
    the same breakdown. *)
Theorem C10_category_hint_is_ignored :
  forall (num : Type) (J : JsNumber num) (l1 l2 : list RawIngredient),
    Forall2 (fun a b => raw_name a = raw_name b
                        /\ estimated_quantity a = estimated_quantity b)
            l1 l2 ->
    calculateCarbonFootprint l1 = calculateCarbonFootprint l2.
Proof.
  intros num J l1 l2 Hl. unfold calculateCarbonFootprint.
  induction Hl as [|a b l1 l2 [Hn Hq] _ IH]; simpl; [reflexivity|].
  f_equal; [|exact IH]. unfold resolve. now rewrite Hn, Hq.
Qed.

Lemma C10_category_hint_witness :
  calculateCarbonFootprint (num := float)
    [raw "Beef" "150g" "meat"; raw "xyzfoo123" "2 cups" "meat"]
  = calculateCarbonFootprint
    [raw "Beef" "150g" "vegetables"; raw "xyzfoo123" "2 cups" ""].
Proof.
  apply C10_category_hint_is_ignored.
  repeat constructor.
Defined.

(* ================================================================== *)
(** ** Properties of the string operations *)

Lemma starts_with_app s t : starts_with s t = true <-> exists b, s = t ++ b.
Proof.
  revert s. induction t as [|c t IH]; intros s; simpl.
  - split; [intros _; now exists s|reflexivity].
  - destruct s as [|d s]; [split; [discriminate|intros [b [=]]]|].
    destruct (Ascii.eqb_spec c d) as [->|Hcd]; simpl.
    + rewrite IH. split; intros [b E]; exists b; congruence.
    + split; [discriminate|]. intros [b [= E _]]. congruence.
Qed.

(** [includes] is the substring relation. *)
Lemma includes_app s t :
  includes s t = true <-> exists a b, s = a ++ t ++ b.
Proof.
  induction s as [|c s IH]; cbn [includes].
  - destruct (starts_with "" t) eqn:Hp.
    + apply starts_with_app in Hp as [b E]. split; [|reflexivity].
      intros _. now exists "", b.
    + split; [discriminate|]. intros [a [b E]].
      destruct a; simpl in E.
      * assert (Hp' : starts_with "" t = true)
          by (apply starts_with_app; eauto).
        congruence.
      * discriminate E.
  - destruct (starts_with (String c s) t) eqn:Hp.
    + apply starts_with_app in Hp as [b E]. split; [|reflexivity].
      intros _. now exists "", b.
    + rewrite IH. split.
      * intros [a [b E]]. exists (String c a), b. simpl. now rewrite E.
      * intros [a [b E]]. destruct a as [|c' a]; simpl in E.
        -- assert (Hp' : starts_with (String c s) t = true)
             by (apply starts_with_app; eauto).
           congruence.
        -- injection E as _ E. eauto.
Qed.

Lemma append_assoc (a b c : string) : (a ++ b) ++ c = a ++ b ++ c.
Proof. induction a as [|x a IH]; simpl; [reflexivity|now rewrite IH]. Qed.

Lemma includes_trans s t u :
  includes s t = true -> includes t u = true -> includes s u = true.
Proof.
  rewrite !includes_app. intros [a [b ->]] [a' [b' ->]].
  exists (a ++ a'), (b' ++ b). now rewrite !append_assoc.
Qed.

(** Every text that contains "large" contains "g", and every text that
    contains "kg" contains "g". *)
Lemma includes_large_g s : includes s "large" = true -> includes s "g" = true.
Proof. intros Hs. now apply (includes_trans s "large" "g"). Qed.

Lemma includes_kg_g s : includes s "kg" = true -> includes s "g" = true.
Proof. intros Hs. now apply (includes_trans s "kg" "g"). Qed.

Lemma all_chars_keep p s : all_chars p (keep p s) = true.
Proof.
  induction s as [|c s IH]; simpl; [reflexivity|].
  destruct (p c) eqn:Hc; simpl; [now rewrite Hc|exact IH].
Qed.

Lemma keep_all_chars p s : all_chars p s = true -> keep p s = s.
Proof.
  induction s as [|c s IH]; simpl; [reflexivity|].
  intros [Hc Hs]%andb_true_iff. now rewrite Hc, IH.
Qed.

Lemma all_chars_trimStart p s :
  all_chars p s = true -> all_chars p (trimStart s) = true.
Proof.
  induction s as [|c s IH]; simpl; [reflexivity|].
  intros Hcs. destruct (is_space c); [|exact Hcs].
  apply andb_true_iff in Hcs as [_ Hs]. now apply IH.
Qed.

Lemma all_chars_trimEnd p s :
  all_chars p s = true -> all_chars p (trimEnd s) = true.
Proof.
  induction s as [|c s IH]; simpl; [reflexivity|].
  intros [Hc Hs]%andb_true_iff.
  destruct (is_space c && is_empty (trimEnd s)); simpl; [reflexivity|].
  now rewrite Hc, IH.
Qed.

Lemma trimStart_idem s : trimStart (trimStart s) = trimStart s.
Proof.
  induction s as [|c s IH]; simpl; [reflexivity|].
  destruct (is_space c) eqn:Hc; [exact IH|]. simpl. now rewrite Hc.
Qed.

Lemma trimEnd_idem s : trimEnd (trimEnd s) = trimEnd s.
Proof.
  induction s as [|c s IH]; simpl; [reflexivity|].
  destruct (is_space c && is_empty (trimEnd s)) eqn:Hc; [reflexivity|].
  simpl. now rewrite IH, Hc.
Qed.

Lemma trimEnd_trimStart s : trimEnd s = s -> trimEnd (trimStart s) = trimStart s.
Proof.
  induction s as [|c s IH]; simpl; [reflexivity|].
  intros E. destruct (is_space c) eqn:Hc.
  - apply IH. destruct (is_empty (trimEnd s)); simpl in E; congruence.
  - simpl. rewrite Hc. exact E.
Qed.

(** [trim] leaves a trimmed string as it is. *)
Lemma trim_idem s : trim (trim s) = trim s.
Proof.
  unfold trim.
  rewrite (trimEnd_trimStart (trimEnd s) (trimEnd_idem s)).
  apply trimStart_idem.
Qed.

Lemma lower_char_fixed c : is_az c || is_space c = true -> lower_char c = c.
Proof.
  destruct c as [[] [] [] [] [] [] [] []]; vm_compute; intros E;
    (reflexivity || discriminate E).
Qed.

Lemma toLowerCase_fixed s :
  all_chars (fun c => is_az c || is_space c) s = true -> toLowerCase s = s.
Proof.
  induction s as [|c s IH]; simpl; [reflexivity|].
  intros [Hc Hs]%andb_true_iff. now rewrite (lower_char_fixed c Hc), IH.
Qed.

Lemma strip_final_s_fixed s : last_char s <> Some "s"%char -> strip_final_s s = s.
Proof.
  induction s as [|c s IH]; simpl; [reflexivity|].
  destruct s as [|d s].
  - intros Hc. destruct (Ascii.eqb_spec c "s"); [congruence|reflexivity].
  - intros Hl. now rewrite (IH Hl).
Qed.

(** The normalized name consists of lower-case letters and white space
    and is trimmed. *)
Lemma normalized_chars s :
  all_chars (fun c => is_az c || is_space c) (normalizeIngredientName s) = true.
Proof.
  unfold normalizeIngredientName, trim.
  apply all_chars_trimStart, all_chars_trimEnd, all_chars_keep.
Qed.

(** C8 (as stated, refuted): normalizing "Swiss" gives "swis", and
    normalizing that again gives "swi". *)
Lemma C8_idempotence_counterexample :
  normalizeIngredientName "Swiss" = "swis"
  /\ normalizeIngredientName (normalizeIngredientName "Swiss") = "swi"
  /\ normalizeIngredientName (normalizeIngredientName "Swiss")
     <> normalizeIngredientName "Swiss".
Proof.
  split; [reflexivity|]. split; [reflexivity|].
  intros E. vm_compute in E. discriminate E.
Qed.

(** C8 (amended): the normalizer returns its own output unchanged
    whenever that output does not end in "s". *)
Theorem C8_normalizer_idempotent_unless_final_s :
  forall s : string,
    last_char (normalizeIngredientName s) <> Some "s"%char ->
    normalizeIngredientName (normalizeIngredientName s)
    = normalizeIngredientName s.
Proof.
  intros s Hlast. pose proof (normalized_chars s) as Hall.
  unfold normalizeIngredientName at 1.
  rewrite (toLowerCase_fixed _ Hall), (strip_final_s_fixed _ Hlast),
    (keep_all_chars _ _ Hall).
  unfold normalizeIngredientName. apply trim_idem.
Qed.

Lemma C8_normalizer_idempotent_witness :
  normalizeIngredientName (normalizeIngredientName "  Olive-Oil! ")
  = normalizeIngredientName "  Olive-Oil! ".
Proof.
  apply C8_normalizer_idempotent_unless_final_s.
  vm_compute. discriminate.
Defined.

(* ================================================================== *)
(** ** Properties of the arithmetic: rounding *)

(** Signs through the operations of binary64, on the decoded doubles. *)
Module SignFacts.

Lemma shr_1_nonneg mrs : (0 <= shr_m mrs)%Z -> (0 <= shr_m (shr_1 mrs))%Z.
Proof.
  destruct mrs as [m r s]. simpl.
  destruct m as [|p|p]; [simpl; lia| |lia].
  intros _. destruct p; simpl; lia.
Qed.

Lemma iter_shr_1_nonneg p mrs :
  (0 <= shr_m mrs)%Z -> (0 <= shr_m (SpecFloat.iter_pos shr_1 p mrs))%Z.
Proof.
  revert mrs. induction p as [p IH|p IH|]; intros mrs Hm; simpl.
  - apply IH, IH, shr_1_nonneg, Hm.
  - apply IH, IH, Hm.
  - apply shr_1_nonneg, Hm.
Qed.

Lemma shr_nonneg mrs e n :
  (0 <= shr_m mrs)%Z -> (0 <= shr_m (fst (shr mrs e n)))%Z.
Proof.
  intros Hm. unfold shr. destruct n; simpl; try exact Hm.
  apply iter_shr_1_nonneg, Hm.
Qed.

Lemma shr_fexp_nonneg m e l :
  (0 <= m)%Z -> (0 <= shr_m (fst (shr_fexp prec emax m e l)))%Z.
Proof.
  intros Hm. unfold shr_fexp. apply shr_nonneg.
  destruct l as [|[]]; exact Hm.
Qed.

Lemma round_nearest_even_nonneg m l :
  (0 <= m)%Z -> (0 <= round_nearest_even m l)%Z.
Proof.
  intros Hm. unfold round_nearest_even.
  destruct l as [|[]]; try lia. destruct (IntDef.Z.even m); lia.
Qed.

Lemma binary_round_aux_nonneg mx ex lx :
  (0 <= mx)%Z ->
  nonneg_sf (binary_round_aux prec emax false mx ex lx) = true.
Proof.
  intros Hm. unfold binary_round_aux.
  pose proof (shr_fexp_nonneg mx ex lx Hm) as H1.
  destruct (shr_fexp prec emax mx ex lx) as [mrs' e']. cbn [fst] in H1.
  pose proof (shr_fexp_nonneg
                (round_nearest_even (shr_m mrs') (loc_of_shr_record mrs'))
                e' loc_Exact
                (round_nearest_even_nonneg _ _ H1)) as H2.
  destruct (shr_fexp prec emax _ e' loc_Exact) as [mrs'' e''].
  cbn [fst] in H2.
  destruct (shr_m mrs'') as [|p|p]; [reflexivity| |lia].
  destruct (e'' <=? emax - prec)%Z; reflexivity.
Qed.

Lemma binary_round_nonneg m e :
  nonneg_sf (binary_round prec emax false m e) = true.
Proof.
  unfold binary_round.
  destruct (shl_align m e _) as [mz ez].
  apply binary_round_aux_nonneg. lia.
Qed.

Lemma binary_normalize_nonneg m e :
  (0 <= m)%Z -> nonneg_sf (binary_normalize prec emax m e false) = true.
Proof.
  intros Hm. unfold binary_normalize.
  destruct m as [|p|p]; [reflexivity|apply binary_round_nonneg|lia].
Qed.

Lemma SFldexp_nonneg f e :
  nonneg_sf f = true -> nonneg_sf (SFldexp prec emax f e) = true.
Proof.
  destruct f as [[]|[]| |[] m ex]; simpl; try discriminate; trivial.
  intros _. apply binary_round_nonneg.
Qed.

(** A non-negative specification float stays so through [SF2Prim]. *)
Lemma SF2Prim_nonneg x :
  nonneg_sf x = true -> nonneg_sf (Prim2SF (SF2Prim x)) = true.
Proof.
  destruct x as [[]|[]| |[] m e]; simpl; try discriminate;
    try (intros _; vm_compute; reflexivity).
  intros _. unfold Z.ldexp. rewrite ldshiftexp_spec, of_uint63_spec.
  apply SFldexp_nonneg, binary_normalize_nonneg.
  apply Uint63.to_Z_bounded.
Qed.

Lemma SFmul_nonneg_l x y :
  positive_finite_sf x = true -> nonneg_sf y = true ->
  nonneg_sf (SFmul prec emax x y) = true.
Proof.
  destruct x as [[]|[]| |[] mx ex]; try discriminate. intros _.
  destruct y as [[]|[]| |[] my ey]; try discriminate; intros _;
    try reflexivity.
  simpl. apply binary_round_aux_nonneg. lia.
Qed.

Lemma SFmul_nonneg_r x y :
  nonneg_sf x = true -> positive_finite_sf y = true ->
  nonneg_sf (SFmul prec emax x y) = true.
Proof.
  intros Hx Hy. destruct y as [[]|[]| |[] my ey]; try discriminate.
  destruct x as [[]|[]| |[] mx ex]; try discriminate; try reflexivity.
  simpl. apply binary_round_aux_nonneg. lia.
Qed.

Lemma div_eucl_nonneg a b :
  (0 <= a)%Z -> (0 < b)%Z -> (0 <= fst (IntDef.Z.div_eucl a b))%Z.
Proof.
  intros Ha Hb. change (IntDef.Z.div_eucl a b) with (Z.div_eucl a b).
  change (fst (Z.div_eucl a b)) with (let (q, _) := Z.div_eucl a b in q).
  fold (Z.div a b). now apply Z.div_pos.
Qed.

Lemma SFdiv_nonneg x y :
  nonneg_sf x = true -> positive_finite_sf y = true ->
  nonneg_sf (SFdiv prec emax x y) = true.
Proof.
  intros Hx Hy. destruct y as [[]|[]| |[] my ey]; try discriminate.
  destruct x as [[]|[]| |[] mx ex]; try discriminate; try reflexivity.
  cbn [SFdiv xorb]. unfold SFdiv_core_binary.
  set (m' := match _ with 0%Z => Z.pos mx | Z.pos _ => _ | Z.neg _ => 0%Z end).
  assert (Hm' : (0 <= m')%Z).
  { unfold m'. destruct (_ - _ - _)%Z as [|s|s]; [lia| |lia].
    change (IntDef.Z.shiftl (Z.pos mx) (Z.pos s))
      with (Z.shiftl (Z.pos mx) (Z.pos s)).
    rewrite Z.shiftl_mul_pow2 by lia.
    apply Z.mul_nonneg_nonneg; [lia|]. apply Z.pow_nonneg. lia. }
  pose proof (div_eucl_nonneg m' (Z.pos my) Hm' ltac:(lia)) as Hq.
  destruct (IntDef.Z.div_eucl m' (Z.pos my)) as [q r]. cbn [fst] in Hq.
  apply binary_round_aux_nonneg, Hq.
Qed.

Lemma SFadd_nonneg x y :
  nonneg_sf x = true -> nonneg_sf y = true ->
  nonneg_sf (SFadd prec emax x y) = true.
Proof.
  destruct x as [[]|[]| |[] mx ex]; try discriminate; intros _;
    destruct y as [[]|[]| |[] my ey]; try discriminate; intros _;
    try reflexivity.
  cbn [SFadd cond_Zopp]. apply binary_normalize_nonneg. lia.
Qed.

End SignFacts.

(** The same for the primitive operations and for the conversions of the
    embedding. *)
Module DoubleFacts.
Import SignFacts.

Lemma of_Q_nonneg (q : Q) : (0 <= Qnum q)%Z -> nonneg (Binary64.of_Q q) = true.
Proof.
  intros Hq. unfold Binary64.of_Q, nonneg.
  destruct (Qnum q) as [|n|n]; [vm_compute; reflexivity| |lia].
  apply SF2Prim_nonneg, SFdiv_nonneg; reflexivity.
Qed.

Lemma of_Z_nonneg (z : Z) : (0 <= z)%Z -> nonneg (Binary64.of_Z z) = true.
Proof.
  intros Hz. unfold Binary64.of_Z, nonneg.
  apply SF2Prim_nonneg, binary_normalize_nonneg, Hz.
Qed.

Lemma mul_nonneg_r (x y : float) :
  nonneg x = true -> positive_finite y = true ->
  nonneg (PrimFloat.mul x y) = true.
Proof.
  unfold nonneg, positive_finite. rewrite mul_spec. apply SFmul_nonneg_r.
Qed.

Lemma mul_nonneg_l (x y : float) :
  positive_finite x = true -> nonneg y = true ->
  nonneg (PrimFloat.mul x y) = true.
Proof.
  unfold nonneg, positive_finite. rewrite mul_spec. apply SFmul_nonneg_l.
Qed.

Lemma div_nonneg (x y : float) :
  nonneg x = true -> positive_finite y = true ->
  nonneg (PrimFloat.div x y) = true.
Proof.
  unfold nonneg, positive_finite. rewrite div_spec. apply SFdiv_nonneg.
Qed.

Lemma add_nonneg (x y : float) :
  nonneg x = true -> nonneg y = true -> nonneg (PrimFloat.add x y) = true.
Proof. unfold nonneg. rewrite add_spec. apply SFadd_nonneg. Qed.

Lemma round_nonneg (x : float) :
  nonneg x = true -> nonneg (Binary64.round x) = true.
Proof.
  intros Hx. unfold Binary64.round. unfold nonneg in Hx.
  destruct (Prim2SF x) as [[]|[]| |[] m e] eqn:Ex; try discriminate Hx;
    try (unfold nonneg; now rewrite Ex).
  destruct (e <? 0)%Z eqn:He; [|unfold nonneg; now rewrite Ex].
  apply Z.ltb_lt in He. cbv zeta.
  apply of_Z_nonneg. apply Z.div_pos.
  - assert (0 <= 2 ^ (- e))%Z by (apply Z.pow_nonneg; lia). lia.
  - apply Z.pow_pos_nonneg; lia.
Qed.

Lemma compare_refl_pos m : PosDef.Pos.compare_cont Eq m m = Eq.
Proof. change (Pos.compare m m = Eq). apply Pos.compare_refl. Qed.

(** A non-negative double is no NaN and is not below zero. *)
Lemma nonneg_not_nan (x : float) : nonneg x = true -> PrimFloat.is_nan x = false.
Proof.
  unfold nonneg, PrimFloat.is_nan. rewrite eqb_spec.
  destruct (Prim2SF x) as [[]|[]| |[] m e]; try discriminate; intros _;
    try reflexivity.
  unfold SFeqb, SFcompare. now rewrite Z.compare_refl, compare_refl_pos.
Qed.

Lemma nonneg_not_below_zero (x : float) :
  nonneg x = true -> PrimFloat.ltb x (lit 0) = false.
Proof.
  unfold nonneg. rewrite ltb_spec.
  change (Prim2SF (lit 0)) with (S754_zero false).
  now destruct (Prim2SF x) as [[]|[]| |[] m e].
Qed.

Lemma SFltb_asym x y : SFltb x y = true -> SFltb y x = false.
Proof.
  unfold SFltb.
  destruct x as [sx|sx| |sx mx ex], y as [sy|sy| |sy my ey]; simpl;
    try discriminate; try (destruct sx; discriminate);
    try (destruct sy; discriminate);
    try (destruct sx, sy; (discriminate || reflexivity)).
  destruct sx, sy; try (discriminate || reflexivity).
  - rewrite (Z.compare_antisym ey ex).
    destruct (ey ?= ex)%Z; simpl; try (discriminate || reflexivity).
    change (PosDef.Pos.compare_cont Eq mx my) with (Pos.compare mx my).
    change (PosDef.Pos.compare_cont Eq my mx) with (Pos.compare my mx).
    rewrite (Pos.compare_antisym mx my).
    destruct (mx ?= my)%positive; simpl; (discriminate || reflexivity).
  - rewrite (Z.compare_antisym ey ex).
    destruct (ey ?= ex)%Z; simpl; try (discriminate || reflexivity).
    change (PosDef.Pos.compare_cont Eq mx my) with (Pos.compare mx my).
    change (PosDef.Pos.compare_cont Eq my mx) with (Pos.compare my mx).
    rewrite (Pos.compare_antisym mx my).
    destruct (mx ?= my)%positive; simpl; (discriminate || reflexivity).
Qed.

Lemma ltb_asym (x y : float) :
  PrimFloat.ltb x y = true -> PrimFloat.ltb y x = false.
Proof. rewrite !ltb_spec. apply SFltb_asym. Qed.

(** Above a positive finite double means above zero. *)
Lemma above_positive (c y : float) :
  positive_finite c = true -> PrimFloat.ltb c y = true ->
  PrimFloat.ltb (lit 0) y = true.
Proof.
  unfold positive_finite. rewrite !ltb_spec.
  change (Prim2SF (lit 0)) with (S754_zero false).
  destruct (Prim2SF c) as [[]|[]| |[] mc ec]; try discriminate. intros _.
  unfold SFltb, SFcompare.
  destruct (Prim2SF y) as [[]|[]| |[] my ey]; try discriminate; reflexivity.
Qed.

(** The clamp of the last line of the parser, for a non-negative amount. *)
Lemma clamp_in_band (y : float) :
  nonneg y = true ->
  let r := Binary64.max (lit 0.05) (Binary64.min y (lit 0.5)) in
  nonneg r = true
  /\ PrimFloat.ltb r (lit 0.05) = false
  /\ PrimFloat.ltb (lit 0.5) r = false
  /\ PrimFloat.ltb (lit 0) r = true.
Proof.
  intros Hy r. subst r. unfold Binary64.min.
  rewrite (nonneg_not_nan y Hy).
  change (PrimFloat.is_nan (lit 0.5)) with false. cbn [orb].
  destruct (PrimFloat.ltb (lit 0.5) y) eqn:Hhi.
  { repeat split; vm_compute; reflexivity. }
  unfold Binary64.max. rewrite (nonneg_not_nan y Hy).
  change (PrimFloat.is_nan (lit 0.05)) with false. cbn [orb].
  destruct (PrimFloat.ltb (lit 0.05) y) eqn:Hlo.
  - repeat split; [exact Hy|now apply ltb_asym|exact Hhi|].
    apply (above_positive (lit 0.05) y); [reflexivity|exact Hlo].
  - repeat split; vm_compute; reflexivity.
Qed.

End DoubleFacts.

(** [Math.round] on a finite double: the nearest integer, the upper one at
    a tie. *)
Module RoundFacts.
Import DoubleFacts.

Lemma integer_nearest (n : Z) :
  inject_Z n - (1 # 2) <= inject_Z n /\ inject_Z n < inject_Z n + (1 # 2).
Proof.
  split.
  - unfold Qle, Qminus, Qplus, Qopp, inject_Z. cbn [Qnum Qden]. lia.
  - unfold Qlt, Qplus, inject_Z. cbn [Qnum Qden]. lia.
Qed.

Lemma round_nearest (x : float) (q : Q) :
  double_value x = Some q ->
  exists n : Z,
    inject_Z n - (1 # 2) <= q /\ q < inject_Z n + (1 # 2)
    /\ (Binary64.round x = Binary64.of_Z n
        \/ (Binary64.round x = x /\ q == inject_Z n)).
Proof.
  unfold double_value, Binary64.round.
  destruct (Prim2SF x) as [sz|si| |s m e]; try discriminate.
  { intros [= <-]. exists 0%Z. split; [|split]; try apply (integer_nearest 0).
    right. split; reflexivity. }
  cbv zeta. destruct (e <? 0)%Z eqn:He.
  - apply Z.ltb_lt in He. intros [= <-].
    set (M := cond_Zopp s (Z.pos m)).
    assert (HM : (if s then Z.neg m else Z.pos m) = M) by now destruct s.
    rewrite HM. set (P := (2 ^ (- e))%Z).
    assert (HP : (0 < P)%Z) by (apply Z.pow_pos_nonneg; lia).
    assert (HP2 : (2 ^ (- e + 1) = 2 * P)%Z)
      by (unfold P; rewrite Z.pow_add_r by lia; lia).
    rewrite HP2.
    set (n := ((2 * M + P) / (2 * P))%Z).
    pose proof (Z.mul_div_le (2 * M + P) (2 * P) ltac:(lia)) as Hlo.
    pose proof (Z.mul_succ_div_gt (2 * M + P) (2 * P) ltac:(lia)) as Hhi.
    fold n in Hlo, Hhi.
    exists n. split; [|split; [|now left]].
    + unfold Qle, Qminus, Qplus, Qopp, inject_Z. cbn [Qnum Qden].
      rewrite Z2Pos.id by exact HP. nia.
    + unfold Qlt, Qplus, inject_Z. cbn [Qnum Qden].
      rewrite Z2Pos.id by exact HP. nia.
  - intros [= <-]. exists (cond_Zopp s (Z.pos m) * 2 ^ e)%Z.
    split; [|split]; try apply integer_nearest. right. split; reflexivity.
Qed.

Lemma round_other (x : float) :
  double_value x = None -> Binary64.round x = x.
Proof.
  unfold double_value, Binary64.round.
  destruct (Prim2SF x) as [sz|si| |s m e]; try discriminate; reflexivity.
Qed.

End RoundFacts.

Lemma fold_left_carbon_kg {num : Type} `{JsNumber num}
      (l : list (Ingredient num)) (a : num) :
  fold_left (fun sum ingredient => add sum (carbon_kg ingredient)) l a
  = fold_left add (map carbon_kg l) a.
Proof. revert a. induction l as [|x l IH]; intros a; simpl; [reflexivity|apply IH]. Qed.

(** C3 (as stated, refuted): in the arithmetic of the engine the example
    gives 1.03 for the first ingredient and 1.57 for the total, each a full
    hundredth away from the 1.04 and 1.58 of the specification. *)
Lemma C3_example_counterexample :
  map carbon_kg (calculateCarbonFootprint (num := float) example_dish)
    = [lit 1.03; lit 0.54]
  /\ getTotalCarbonFootprint (calculateCarbonFootprint (num := float) example_dish)
    = lit 1.57
  /\ PrimFloat.ltb (distance (round2 (mul (lit 6.9) (lit 0.15))) (lit 1.04))
                   (lit 0.005) = false
  /\ PrimFloat.ltb (distance (getTotalCarbonFootprint
                                (calculateCarbonFootprint example_dish))
                             (lit 1.58))
                   (lit 0.005) = false.
Proof. repeat split; vm_compute; reflexivity. Qed.

(** C3 (amended): every carbon_kg is [round2] of intensity times parsed
    mass, and the total is [round2] of the left-to-right sum of the rounded
    carbon_kg values, where [round2 x] is [Math.round (x * 100) / 100] in
    binary64: [Math.round] takes a finite double to the integer nearest to
    it, the upper one at a tie, and leaves any other double as it is.
    This is not always the half-up rounding of the product to two
    decimals.  For (6.9, 0.15) and (2.7, 0.2) the engine yields 1.03 and
    0.54 and the total 1.57, since 6.9 * 0.15 * 100 is
    103.49999999999999; and for cheese, 13.5 per kg, at "30g" the product
    is a double below 0.405, yet a hundred times it is the double 40.5,
    and carbon_kg is 0.41. *)
Theorem C3_rounding_per_ingredient_and_total :
  (forall (num : Type) (J : JsNumber num) (l : list RawIngredient),
      map carbon_kg (calculateCarbonFootprint l)
      = map (fun x =>
               round2 (mul (per_kg (findCarbonData
                                      (normalizeIngredientName (raw_name x))))
                           (parseQuantityToKg (estimated_quantity x)))) l
      /\ getTotalCarbonFootprint (calculateCarbonFootprint l)
         = round2 (fold_left add (map carbon_kg (calculateCarbonFootprint l))
                             (lit 0)))
  /\ (forall x : float,
         round2 x = PrimFloat.div (Binary64.round (PrimFloat.mul x (lit 100)))
                                  (lit 100))
  /\ (forall (x : float) (q : Q),
         double_value x = Some q ->
         exists n : Z,
           inject_Z n - (1 # 2) <= q /\ q < inject_Z n + (1 # 2)
           /\ (Binary64.round x = Binary64.of_Z n
               \/ (Binary64.round x = x /\ q == inject_Z n)))
  /\ (forall x : float, double_value x = None -> Binary64.round x = x)
  /\ (map (fun x => (per_kg (num := float)
                       (findCarbonData (normalizeIngredientName (raw_name x))),
                     parseQuantityToKg (num := float) (estimated_quantity x)))
          example_dish
        = [(lit 6.9, lit 0.15); (lit 2.7, lit 0.2)]
      /\ mul (mul (lit 6.9) (lit 0.15)) (lit 100) = lit 103.49999999999999
      /\ map carbon_kg (calculateCarbonFootprint (num := float) example_dish)
         = [lit 1.03; lit 0.54]
      /\ getTotalCarbonFootprint
           (calculateCarbonFootprint (num := float) example_dish)
         = lit 1.57)
  /\ (per_kg (num := float)
        (findCarbonData (normalizeIngredientName (raw_name cheese_30g)))
      = lit 13.5
      /\ parseQuantityToKg (num := float) (estimated_quantity cheese_30g)
         = lit 0.03
      /\ double_value (PrimFloat.mul (lit 13.5) (lit 0.03))
         = Some (7295831396340203 # 18014398509481984)
      /\ (7295831396340203 # 18014398509481984) < 0.405
      /\ PrimFloat.mul (PrimFloat.mul (lit 13.5) (lit 0.03)) (lit 100)
         = lit 40.5
      /\ carbon_kg (resolve (num := float) cheese_30g) = lit 0.41).
Proof.
  split; [|split; [reflexivity|]].
  - intros num J l. split.
    + unfold calculateCarbonFootprint. rewrite map_map. reflexivity.
    + unfold getTotalCarbonFootprint. now rewrite fold_left_carbon_kg.
  - split; [exact RoundFacts.round_nearest|].
    split; [exact RoundFacts.round_other|].
    split; repeat split; vm_compute; reflexivity.
Qed.

Lemma C3_rounding_witness :
  exists n : Z,
    inject_Z n - (1 # 2) <= (5699868278390784 # 140737488355328)
    /\ (5699868278390784 # 140737488355328) < inject_Z n + (1 # 2)
    /\ (Binary64.round (lit 40.5) = Binary64.of_Z n
        \/ (Binary64.round (lit 40.5) = lit 40.5
            /\ (5699868278390784 # 140737488355328) == inject_Z n)).
Proof.
  apply (proj1 (proj2 (proj2 C3_rounding_per_ingredient_and_total))
               (lit 40.5) (5699868278390784 # 140737488355328)).
  vm_compute. reflexivity.
Defined.

(* ================================================================== *)
(** ** Properties of the quantity parser *)

Lemma digits_val_nonneg s acc : (0 <= acc)%Z -> (0 <= digits_val acc s)%Z.
Proof.
  revert acc. induction s as [|c s IH]; intros acc Hacc; cbn [digits_val];
    [exact Hacc|].
  apply IH. unfold digit_val.
  pose proof (N2Z.is_nonneg (code c - 48)). lia.
Qed.

(** The parser in binary64: never NaN and never below zero, above zero
    without a scaling unit, inside the serving band without any keyword. *)
Module ParserFacts.
Import DoubleFacts.

Lemma decimal_value_num ds fs : (0 <= Qnum (decimal_value ds fs))%Z.
Proof.
  unfold decimal_value. cbn [Qnum].
  apply digits_val_nonneg. lia.
Qed.

Lemma baseAmount_nonneg text :
  nonneg match match_number text with
         | Some (ds, fs) => lit (decimal_value ds fs)
         | None => lit 0.1
         end = true.
Proof.
  destruct (match_number text) as [[ds fs]|]; [|vm_compute; reflexivity].
  apply of_Q_nonneg, decimal_value_num.
Qed.

Ltac scaled_mass Hb :=
  split;
  [first [exact Hb
         |apply mul_nonneg_r; [exact Hb|vm_compute; reflexivity]
         |apply div_nonneg; [exact Hb|vm_compute; reflexivity]]
  |split; intros Hu; discriminate Hu].

Ltac constant_mass :=
  split; [vm_compute; reflexivity|];
  split; [intros _; vm_compute; reflexivity|intros Hu; discriminate Hu].

Lemma parsed_mass_double (s : string) :
  nonneg (parseQuantityToKg (num := float) s) = true
  /\ (has_any (toLowerCase s) scaling_units = false ->
      PrimFloat.ltb (lit 0) (parseQuantityToKg (num := float) s) = true)
  /\ (has_any (toLowerCase s) (scaling_units ++ size_words) = false ->
      PrimFloat.ltb (parseQuantityToKg (num := float) s) (lit 0.05) = false
      /\ PrimFloat.ltb (lit 0.5) (parseQuantityToKg (num := float) s) = false).
Proof.
  unfold parseQuantityToKg, has_any, scaling_units, size_words.
  set (L := toLowerCase s).
  pose proof (baseAmount_nonneg L) as Hb.
  set (b := match match_number L with
            | Some (ds, fs) => lit (decimal_value ds fs)
            | None => lit 0.1
            end) in *.
  cbn [existsb app mul div Math_max Math_min binary64].
  destruct (includes L "kg") eqn:Hkg; cbn [andb orb negb];
    [scaled_mass Hb|].
  destruct (includes L "g") eqn:Hg; cbn [andb orb negb];
    [scaled_mass Hb|].
  destruct (includes L "lb") eqn:Hlb; cbn [andb orb negb];
    [scaled_mass Hb|].
  destruct (includes L "pound") eqn:Hpound; cbn [andb orb negb];
    [scaled_mass Hb|].
  destruct (includes L "oz") eqn:Hoz; cbn [andb orb negb];
    [scaled_mass Hb|].
  destruct (includes L "ounce") eqn:Hounce; cbn [andb orb negb];
    [scaled_mass Hb|].
  destruct (includes L "cup") eqn:Hcup; cbn [andb orb negb];
    [scaled_mass Hb|].
  destruct (includes L "tbsp") eqn:Htbsp; cbn [andb orb negb];
    [scaled_mass Hb|].
  destruct (includes L "tablespoon") eqn:Htablespoon; cbn [andb orb negb];
    [scaled_mass Hb|].
  destruct (includes L "tsp") eqn:Htsp; cbn [andb orb negb];
    [scaled_mass Hb|].
  destruct (includes L "teaspoon") eqn:Hteaspoon; cbn [andb orb negb];
    [scaled_mass Hb|].
  destruct (includes L "small") eqn:Hsmall; cbn [andb orb negb];
    [constant_mass|].
  destruct (includes L "medium") eqn:Hmedium; cbn [andb orb negb];
    [constant_mass|].
  destruct (includes L "large") eqn:Hlarge; cbn [andb orb negb];
    [constant_mass|].
  destruct (includes L "piece") eqn:Hpiece; cbn [andb orb negb];
    [constant_mass|].
  destruct (includes L "item") eqn:Hitem; cbn [andb orb negb];
    [constant_mass|].
  assert (Hy : nonneg (PrimFloat.mul b (lit 0.1)) = true)
    by (apply mul_nonneg_r; [exact Hb|vm_compute; reflexivity]).
  destruct (clamp_in_band _ Hy) as (Hn & Hlo & Hhi & Hpos).
  split; [exact Hn|]. split; [intros _; exact Hpos|intros _; now split].
Qed.

End ParserFacts.

Lemma has_any_false text kw keywords :
  has_any text keywords = false -> In kw keywords -> includes text kw = false.
Proof.
  unfold has_any. intros Hnone Hin.
  destruct (includes text kw) eqn:E; [|reflexivity].
  assert (Hex : existsb (includes text) keywords = true)
    by (apply existsb_exists; eauto).
  congruence.
Qed.


Section ParserBranches.

Context {num : Type} `{JsNumber num}.


(** With no scaling unit in the text, the size and piece words decide. *)
Lemma parse_size_words (s : string) :
  has_any (toLowerCase s) scaling_units = false ->
  (includes (toLowerCase s) "small" = true -> parseQuantityToKg s = lit 0.05)
  /\ (includes (toLowerCase s) "small" = false ->
      includes (toLowerCase s) "medium" = true ->
      parseQuantityToKg s = lit 0.1)
  /\ (includes (toLowerCase s) "small" = false ->
      includes (toLowerCase s) "medium" = false ->
      includes (toLowerCase s) "piece" || includes (toLowerCase s) "item" = true ->
      parseQuantityToKg s = lit 0.1).
Proof.
  intros Hnone. unfold parseQuantityToKg.
  set (L := toLowerCase s) in *.
  assert (Hlarge : includes L "large" = false).
  { destruct (includes L "large") eqn:E; [|reflexivity].
    apply includes_large_g in E.
    rewrite (has_any_false L "g" _ Hnone) in E by (simpl; tauto).
    discriminate E. }
  rewrite (has_any_false L "kg" _ Hnone) by (simpl; tauto).
  rewrite (has_any_false L "g" _ Hnone) by (simpl; tauto).
  rewrite (has_any_false L "lb" _ Hnone) by (simpl; tauto).
  rewrite (has_any_false L "pound" _ Hnone) by (simpl; tauto).
  rewrite (has_any_false L "oz" _ Hnone) by (simpl; tauto).
  rewrite (has_any_false L "ounce" _ Hnone) by (simpl; tauto).
  rewrite (has_any_false L "cup" _ Hnone) by (simpl; tauto).
  rewrite (has_any_false L "tbsp" _ Hnone) by (simpl; tauto).
  rewrite (has_any_false L "tablespoon" _ Hnone) by (simpl; tauto).
  rewrite (has_any_false L "tsp" _ Hnone) by (simpl; tauto).
  rewrite (has_any_false L "teaspoon" _ Hnone) by (simpl; tauto).
  cbn [andb orb negb]. rewrite Hlarge.
  split; [|split].
  - now intros ->.
  - now intros -> ->.
  - now intros -> -> ->.
Qed.

End ParserBranches.




(** C5 (as stated, refuted): "1 small cup" contains "small" but is parsed
    through the cup rule, to 1 * 0.24 kg and not to 0.05 kg. *)
Lemma C5_size_word_counterexample :
  includes (toLowerCase "1 small cup") "small" = true
  /\ parseQuantityToKg (num := float) "1 small cup" = lit 0.24
  /\ num_eq (parseQuantityToKg (num := float) "1 small cup") (lit 0.05) = false
  /\ parseQuantityToKg (num := exact) "1 small cup" = lit 0.24
  /\ parseQuantityToKg (num := exact) "1 small cup" <> lit 0.05.
Proof.
  repeat split; try (vm_compute; reflexivity).
  intros E. vm_compute in E. discriminate E.
Qed.

(** C5 (amended): when none of the scaling units (kg, g, lb, pound, oz,
    ounce, cup, tbsp, tablespoon, tsp, teaspoon) occurs in the lower-cased
    text, a text with "small" gives 0.05 kg, otherwise one with "medium"
    gives 0.1 kg, otherwise one with "piece" or "item" gives 0.1 kg,
    whatever number the text holds; and "200g" is 0.2 kg, "1 kg" is 1 kg
    and "2 lb" is within 0.001 of 0.907 kg. *)
Theorem C5_size_words_and_units :
  (forall (num : Type) (J : JsNumber num) (s : string),
      has_any (toLowerCase s) scaling_units = false ->
      (includes (toLowerCase s) "small" = true ->
       parseQuantityToKg s = lit 0.05)
      /\ (includes (toLowerCase s) "small" = false ->
          includes (toLowerCase s) "medium" = true ->
          parseQuantityToKg s = lit 0.1)
      /\ (includes (toLowerCase s) "small" = false ->
          includes (toLowerCase s) "medium" = false ->
          includes (toLowerCase s) "piece"
          || includes (toLowerCase s) "item" = true ->
          parseQuantityToKg s = lit 0.1))
  /\ (parseQuantityToKg (num := float) "200g" = lit 0.2
      /\ parseQuantityToKg (num := float) "1 kg" = lit 1.0
      /\ PrimFloat.ltb (distance (parseQuantityToKg "2 lb") (lit 0.907))
                       (lit 0.001) = true
      /\ parseQuantityToKg (num := float) "medium" = lit 0.1)
  /\ (parseQuantityToKg (num := exact) "200g" = lit 0.2
      /\ parseQuantityToKg (num := exact) "1 kg" = lit 1.0
      /\ parseQuantityToKg (num := exact) "2 lb" = lit 0.907184
      /\ parseQuantityToKg (num := exact) "medium" = lit 0.1).
Proof.
  split; [intros num J s; apply parse_size_words|].
  split; repeat split; vm_compute; reflexivity.
Qed.

Lemma C5_size_words_witness :
  parseQuantityToKg (num := float) "3 Small ones" = lit 0.05
  /\ parseQuantityToKg (num := float) "2 medium" = lit 0.1
  /\ parseQuantityToKg (num := float) "4 pieces" = lit 0.1.
Proof.
  pose proof (proj1 C5_size_words_and_units float binary64) as Hsize.
  split; [|split].
  - exact (proj1 (Hsize "3 Small ones" eq_refl) eq_refl).
  - exact (proj1 (proj2 (Hsize "2 medium" eq_refl)) eq_refl eq_refl).
  - exact (proj2 (proj2 (Hsize "4 pieces" eq_refl)) eq_refl eq_refl eq_refl).
Defined.

(** The check for "large" comes after the check for "g", which every text
    with "large" passes: such a text is never given 0.2 kg by the size
    rule; "large" alone is parsed as 0.1 g. *)
Lemma large_rule_is_unreachable :
  (forall s : string,
      includes (toLowerCase s) "large" = true ->
      includes (toLowerCase s) "kg" = true
      \/ includes (toLowerCase s) "g" && negb (includes (toLowerCase s) "kg")
         = true)
  /\ parseQuantityToKg (num := float) "large" = lit 0.0001
  /\ parseQuantityToKg (num := float) "1 large egg" = lit 0.001.
Proof.
  split; [|split; vm_compute; reflexivity].
  intros s Hl. apply includes_large_g in Hl. rewrite Hl.
  destruct (includes (toLowerCase s) "kg"); [now left|now right].
Qed.

(* ================================================================== *)
(** ** Properties of the contract validators and the fallback selector *)

Section ServiceFacts.

Context {num : Type} `{JsNumber num}.

(** What acceptance by the ingredient loop means: every element has the
    three properties, each with a truthy value. *)
Lemma check_ingredients_valid (items : list json) :
  check_ingredients items = Valid ->
  Forall (fun ingredient =>
            missing ingredient "name" = false
            /\ missing ingredient "estimated_quantity" = false
            /\ missing ingredient "category" = false) items.
Proof.
  induction items as [|x items IH]; intros Hv; [constructor|].
  cbn [check_ingredients] in Hv.
  destruct (missing x "name") eqn:Hn;
    [destruct x; discriminate Hv|].
  destruct (missing x "estimated_quantity") eqn:Hq;
    [destruct x; discriminate Hv|].
  destruct (missing x "category") eqn:Hc;
    [destruct x; discriminate Hv|].
  cbn [orb] in Hv.
  constructor; [now repeat split|].
  apply IH. destruct x; (discriminate Hn || exact Hv).
Qed.

(** What acceptance by [validateLLMResponse] means. *)
Lemma validateLLMResponse_valid (response : json) :
  validateLLMResponse response = Valid ->
  exists items q,
    not_an_object response = false
    /\ get response "ingredients" = Some (JArr items)
    /\ get response "confidence" = Some (JNum q)
    /\ lt (lit q) (lit 0) = false /\ lt (lit 1) (lit q) = false
    /\ Forall (fun ingredient =>
                 missing ingredient "name" = false
                 /\ missing ingredient "estimated_quantity" = false
                 /\ missing ingredient "category" = false) items.
Proof.
  unfold validateLLMResponse.
  destruct (not_an_object response); [discriminate|].
  destruct (get response "ingredients") as [[| | | |items|]|]; try discriminate.
  unfold bad_confidence.
  destruct (get response "confidence") as [[| |q| | |]|]; try discriminate.
  destruct (lt (lit q) (lit 0)) eqn:Hlo; [discriminate|].
  destruct (lt (lit 1) (lit q)) eqn:Hhi; [discriminate|].
  cbn [orb]. intros Hv. exists items, q.
  repeat split; auto using check_ingredients_valid.
Qed.

(** Whatever the completion, [analyzeDish] returns an array of ingredients
    and a numeric confidence. *)
Lemma analyzeDish_shape (completion : Completion) (dishName : string) :
  exists items q,
    get (analyzeDish completion dishName) "ingredients" = Some (JArr items)
    /\ get (analyzeDish completion dishName) "confidence" = Some (JNum q).
Proof.
  unfold analyzeDish.
  destruct completion as [| | |p]; try (eexists; eexists; split; reflexivity).
  destruct (validateLLMResponse p) eqn:Hv;
    [|eexists; eexists; split; reflexivity].
  destruct (validateLLMResponse_valid p Hv) as (items & q & _ & Hi & Hc & _).
  now exists items, q.
Qed.

(** On ingredients that are typed as the interface says, the run-time
    [calculateCarbonFootprint] is the typed one and does not throw. *)
Lemma calculateCarbonFootprint_parsed_raw (l : list RawIngredient) :
  calculateCarbonFootprint_parsed (map json_of_raw l)
  = Some (calculateCarbonFootprint l).
Proof.
  induction l as [|x l IH]; [reflexivity|].
  cbn [map calculateCarbonFootprint_parsed]. rewrite IH.
  destruct x as [n q c]. reflexivity.
Qed.

Lemma analyzeDish_rejected (completion : Completion) (dishName : string) :
  rejected completion = true ->
  analyzeDish completion dishName
  = json_of_LLMResponse (getFallbackResponse dishName).
Proof.
  unfold rejected, analyzeDish.
  destruct completion as [| | |p]; try reflexivity.
  destruct (validateLLMResponse p); [discriminate|reflexivity].
Qed.

(** A dish that is answered from the fallback is always estimated. *)
Lemma estimate_dish_rejected (completion : Completion) (d : string) :
  rejected completion = true ->
  exists e, estimate_dish completion d = Some e.
Proof.
  intros Hr. unfold estimate_dish. rewrite (analyzeDish_rejected _ _ Hr).
  cbn [json_of_LLMResponse get own_property String.eqb Ascii.eqb Bool.eqb].
  rewrite calculateCarbonFootprint_parsed_raw. eauto.
Qed.

End ServiceFacts.

Lemma getFallbackResponse_order (dishName : string) :
  getFallbackResponse dishName
  = if includes (toLowerCase dishName) "pizza" then pizza_response
    else if includes (toLowerCase dishName) "burger" then burger_response
    else if includes (toLowerCase dishName) "pasta" then pasta_response
    else generic_response.
Proof.
  unfold getFallbackResponse, fallbackResponses. cbn [find fst].
  destruct (includes (toLowerCase dishName) "pizza"); [reflexivity|].
  destruct (includes (toLowerCase dishName) "burger"); [reflexivity|].
  destruct (includes (toLowerCase dishName) "pasta"); reflexivity.
Qed.

(** C6 (the code breaks it): a payload whose ingredient name is the number
    42 is accepted by both validators, which test the three properties for
    truthiness only; the estimate of the dish then throws. *)
Theorem C6_numeric_name_is_accepted :
  validateLLMResponse (num := float) numeric_name_payload = Valid
  /\ validateVisionResponse (num := float) numeric_name_vision_payload = Valid
  /\ analyzeDish (num := float) (Parsed numeric_name_payload) "Stew"
     = numeric_name_payload
  /\ estimate_dish (num := float) (Parsed numeric_name_payload) "Stew" = None.
Proof. repeat split; vm_compute; reflexivity. Qed.

(** C7: when the completion fails or its payload is rejected,
    [analyzeDish] returns the canned response chosen by the first of
    "pizza", "burger", "pasta" that occurs in the lower-cased dish name,
    and the generic three-ingredient response when none does; "Pizza
    Margherita" gets the pizza response, of confidence 0.75, and "Unicorn
    tears with dragon scales" the generic one, of confidence 0.5. *)
Theorem C7_fallback_selector :
  forall (num : Type) (J : JsNumber num)
         (completion : Completion) (dishName : string),
    rejected completion = true ->
    analyzeDish completion dishName
    = json_of_LLMResponse
        (if includes (toLowerCase dishName) "pizza" then pizza_response
         else if includes (toLowerCase dishName) "burger" then burger_response
         else if includes (toLowerCase dishName) "pasta" then pasta_response
         else generic_response)
    /\ getFallbackResponse "Pizza Margherita" = pizza_response
    /\ confidence pizza_response = 0.75
    /\ getFallbackResponse "Unicorn tears with dragon scales" = generic_response
    /\ length (ingredients generic_response) = 3%nat
    /\ confidence generic_response = 0.5.
Proof.
  intros num J completion dishName Hr.
  rewrite (analyzeDish_rejected _ _ Hr), getFallbackResponse_order.
  repeat split.
Qed.

Lemma C7_fallback_selector_witness :
  analyzeDish (num := float) CallFails "Pizza Margherita"
    = json_of_LLMResponse pizza_response
  /\ analyzeDish (num := float) (Parsed (JObj [("confidence", JNum 0.9)]))
       "Unicorn tears with dragon scales"
     = json_of_LLMResponse generic_response.
Proof.
  split.
  - exact (proj1 (C7_fallback_selector float binary64 CallFails
                    "Pizza Margherita" eq_refl)).
  - exact (proj1 (C7_fallback_selector float binary64
                    (Parsed (JObj [("confidence", JNum 0.9)]))
                    "Unicorn tears with dragon scales" eq_refl)).
Defined.

(* ================================================================== *)
(** ** Properties of the batch route *)

Lemma length_indexed {A : Type} (l : list A) (i : nat) :
  length (indexed i l) = length l.
Proof.
  revert i. induction l as [|x l IH]; intros i; simpl; [reflexivity|].
  now rewrite IH.
Qed.

Lemma nth_error_indexed {A : Type} (l : list A) (i n : nat) (x : A) :
  nth_error l n = Some x -> nth_error (indexed i l) n = Some ((i + n)%nat, x).
Proof.
  revert i n. induction l as [|y l IH]; intros i n; destruct n as [|n]; simpl;
    try discriminate.
  - intros [= ->]. now rewrite Nat.add_0_r.
  - intros Hn. rewrite (IH (S i) n Hn). f_equal. f_equal. lia.
Qed.

Section BatchFacts.

Context {num : Type} `{JsNumber num}.

(** A batch that is answered is answered item by item. *)
Lemma estimate_batch_inr (llm : nat -> Completion) (dishes : list string)
      (estimates : list (BatchItem num)) :
  estimate_batch llm dishes = inr estimates ->
  estimates
  = map (fun id => batch_item llm (fst id) (snd id)) (indexed 0 dishes).
Proof.
  unfold estimate_batch.
  destruct (is_nil dishes); [discriminate|].
  destruct (10 <? length dishes)%nat; [discriminate|].
  destruct (existsb _ dishes); [discriminate|].
  now intros [= <-].
Qed.

(** Whether a batch is answered does not depend on the completions. *)
Lemma estimate_batch_other (llm llm' : nat -> Completion)
      (dishes : list string) (estimates : list (BatchItem num)) :
  estimate_batch llm dishes = inr estimates ->
  estimate_batch llm' dishes
  = inr (map (fun id => batch_item llm' (fst id) (snd id)) (indexed 0 dishes)).
Proof.
  unfold estimate_batch.
  destruct (is_nil dishes); [discriminate|].
  destruct (10 <? length dishes)%nat; [discriminate|].
  destruct (existsb _ dishes); [discriminate|].
  reflexivity.
Qed.

Lemma nth_error_batch (llm : nat -> Completion) (dishes : list string)
      (i : nat) (d : string) :
  nth_error dishes i = Some d ->
  nth_error (map (fun id => batch_item llm (fst id) (snd id))
                 (indexed 0 dishes)) i
  = Some (batch_item llm i d).
Proof.
  intros Hd. rewrite nth_error_map, (nth_error_indexed dishes 0 i d Hd).
  reflexivity.
Qed.

End BatchFacts.

(** C9: in an answered batch of N dishes in which the processing of the
    dish at position k fails, the result has N items, the item at every
    position is the one of the dish at that position, the item at k is
    the dish with the error marker, zero carbon, no ingredients and zero
    confidence, and every other item is the one of the batch in which the
    completion for k ends differently. *)
Theorem C9_batch_partial_failure :
  forall (num : Type) (J : JsNumber num)
         (llm : nat -> Completion) (dishes : list string)
         (estimates : list (BatchItem num)) (k : nat) (d : string),
    estimate_batch llm dishes = inr estimates ->
    nth_error dishes k = Some d ->
    estimate_dish (llm k) (trim d) = None ->
    length estimates = length dishes
    /\ (forall i di,
           nth_error dishes i = Some di ->
           nth_error estimates i
           = Some (format_result di (estimate_dish (llm i) (trim di))))
    /\ nth_error estimates k
       = Some (Failed {| failed_dish := d;
                         error := "Failed to process dish";
                         failed_carbon_kg := lit 0;
                         failed_ingredients := [];
                         failed_confidence := lit 0 |})
    /\ (forall llm' : nat -> Completion,
           (forall i, i <> k -> llm' i = llm i) ->
           exists estimates',
             estimate_batch llm' dishes = inr estimates'
             /\ length estimates' = length dishes
             /\ forall i, i <> k ->
                          nth_error estimates' i = nth_error estimates i).
Proof.
  intros num J llm dishes estimates k d Hb Hk Hfail.
  pose proof (estimate_batch_inr llm dishes estimates Hb) as ->.
  split; [now rewrite length_map, length_indexed|].
  split; [intros i di Hi; now rewrite (nth_error_batch llm dishes i di Hi)|].
  split.
  - rewrite (nth_error_batch llm dishes k d Hk).
    unfold batch_item. now rewrite Hfail.
  - intros llm' Hsame. eexists.
    split; [exact (estimate_batch_other llm llm' dishes _ Hb)|].
    split; [now rewrite length_map, length_indexed|].
    intros i Hik. destruct (nth_error dishes i) as [di|] eqn:Hi.
    + rewrite !(nth_error_batch _ dishes i di Hi).
      unfold batch_item. now rewrite (Hsame i Hik).
    + apply nth_error_None in Hi.
      assert (Hnone : forall f : nat * string -> BatchItem num,
                 nth_error (map f (indexed 0 dishes)) i = None).
      { intros f. apply nth_error_None.
        now rewrite length_map, length_indexed. }
      now rewrite !Hnone.
Qed.

Lemma C9_batch_partial_failure_witness :
  length (map (fun id => batch_item (num := float) sample_llm (fst id) (snd id))
              (indexed 0 sample_dishes)) = 3%nat
  /\ nth_error (map (fun id => batch_item (num := float) sample_llm
                                 (fst id) (snd id))
                    (indexed 0 sample_dishes)) 1
     = Some (Failed {| failed_dish := " Mystery stew ";
                       error := "Failed to process dish";
                       failed_carbon_kg := lit 0;
                       failed_ingredients := [];
                       failed_confidence := lit 0 |}).
Proof.
  pose proof (C9_batch_partial_failure float binary64 sample_llm sample_dishes
                _ 1 " Mystery stew " eq_refl eq_refl eq_refl) as Hw.
  split; [exact (proj1 Hw)|exact (proj1 (proj2 (proj2 Hw)))].
Defined.

(* ================================================================== *)
(** ** Further properties of the name normalizer and the resolution chain *)

Lemma length_toLowerCase s : String.length (toLowerCase s) = String.length s.
Proof. induction s as [|c s IH]; simpl; [reflexivity|now rewrite IH]. Qed.

Lemma length_strip_final_s s :
  (String.length (strip_final_s s) <= String.length s)%nat.
Proof.
  induction s as [|c s IH]; [apply Nat.le_refl|].
  cbn [strip_final_s]. destruct s as [|d s].
  - destruct (Ascii.eqb c "s"); simpl; lia.
  - cbn [String.length] in *. lia.
Qed.

Lemma length_keep p s : (String.length (keep p s) <= String.length s)%nat.
Proof.
  induction s as [|c s IH]; simpl; [lia|].
  destruct (p c); simpl; lia.
Qed.

Lemma length_trimStart s : (String.length (trimStart s) <= String.length s)%nat.
Proof.
  induction s as [|c s IH]; simpl; [lia|].
  destruct (is_space c); simpl; lia.
Qed.

Lemma length_trimEnd s : (String.length (trimEnd s) <= String.length s)%nat.
Proof.
  induction s as [|c s IH]; simpl; [lia|].
  destruct (is_space c && is_empty (trimEnd s)); simpl; lia.
Qed.

Lemma first_char_trimStart s c :
  first_char (trimStart s) = Some c -> is_space c = false.
Proof.
  induction s as [|d s IH]; simpl; [discriminate|].
  destruct (is_space d) eqn:Hd; [exact IH|].
  simpl. now intros [= <-].
Qed.

Lemma last_char_trimEnd s c :
  last_char (trimEnd s) = Some c -> is_space c = false.
Proof.
  induction s as [|d s IH]; cbn [trimEnd]; [discriminate|].
  destruct (is_space d && is_empty (trimEnd s)) eqn:Hd; [discriminate|].
  cbn [last_char]. destruct (trimEnd s) as [|e r] eqn:Hr.
  - intros [= <-]. cbn [is_empty] in Hd. now rewrite andb_true_r in Hd.
  - exact IH.
Qed.

Lemma last_char_trimStart s c :
  last_char (trimStart s) = Some c -> last_char s = Some c.
Proof.
  induction s as [|d s IH]; cbn [trimStart]; [discriminate|].
  destruct (is_space d); [|trivial].
  intros Hl. specialize (IH Hl). cbn [last_char].
  destruct s; [discriminate IH|exact IH].
Qed.

(** X1: a normalized name consists of the letters a-z and white space
    only, neither begins nor ends with white space, and is never longer
    than the name it comes from. *)
Theorem normalized_name_shape :
  forall s : string,
    all_chars (fun c => is_az c || is_space c) (normalizeIngredientName s)
    = true
    /\ (forall c, first_char (normalizeIngredientName s) = Some c ->
                  is_space c = false)
    /\ (forall c, last_char (normalizeIngredientName s) = Some c ->
                  is_space c = false)
    /\ (String.length (normalizeIngredientName s) <= String.length s)%nat.
Proof.
  intros s. split; [apply normalized_chars|].
  unfold normalizeIngredientName, trim.
  split; [intros c; apply first_char_trimStart|].
  split.
  - intros c Hc. eapply last_char_trimEnd, last_char_trimStart, Hc.
  - pose proof (length_trimStart
                  (trimEnd (keep (fun c => is_az c || is_space c)
                                 (strip_final_s (toLowerCase s))))).
    pose proof (length_trimEnd
                  (keep (fun c => is_az c || is_space c)
                        (strip_final_s (toLowerCase s)))).
    pose proof (length_keep (fun c => is_az c || is_space c)
                            (strip_final_s (toLowerCase s))).
    pose proof (length_strip_final_s (toLowerCase s)).
    pose proof (length_toLowerCase s). lia.
Qed.

Lemma lower_char_idem c : lower_char (lower_char c) = lower_char c.
Proof. destruct c as [[] [] [] [] [] [] [] []]; vm_compute; reflexivity. Qed.

Lemma toLowerCase_idem s : toLowerCase (toLowerCase s) = toLowerCase s.
Proof.
  induction s as [|c s IH]; simpl; [reflexivity|].
  now rewrite lower_char_idem, IH.
Qed.

(** X2: letter case does not matter: lower-casing the name and the
    quantity of an ingredient beforehand changes neither its carbon_kg nor
    its category, and lower-casing a dish name does not change its canned
    response. *)
Theorem resolution_ignores_letter_case :
  forall (num : Type) (J : JsNumber num) (n q c dishName : string),
    carbon_kg (resolve (raw (toLowerCase n) (toLowerCase q) c))
    = carbon_kg (resolve (raw n q c))
    /\ category (resolve (num := num) (raw (toLowerCase n) (toLowerCase q) c))
       = category (resolve (num := num) (raw n q c))
    /\ getFallbackResponse (toLowerCase dishName) = getFallbackResponse dishName.
Proof.
  intros num J n q c dishName.
  unfold resolve, normalizeIngredientName, parseQuantityToKg,
    getFallbackResponse.
  cbn [raw_name estimated_quantity raw carbon_kg category].
  now rewrite !toLowerCase_idem.
Qed.

(** X3: an ingredient named by a key of the table, in any letter case,
    resolves to the entry of that key, also where the normalizer strips
    the final "s" of the key. *)
Theorem table_keys_resolve_to_their_entries :
  forall (k : string) (f : EmissionsFactor) (n : string),
    In (k, f) CARBON_DATA ->
    toLowerCase n = k ->
    findCarbonData (normalizeIngredientName n) = Factor f.
Proof.
  intros k f n Hin Hn. unfold normalizeIngredientName. rewrite Hn. clear Hn n.
  unfold CARBON_DATA in Hin. cbn [In] in Hin.
  repeat (destruct Hin as [Hin|Hin];
          [injection Hin as <- <-; vm_compute; reflexivity|]).
  contradiction.
Qed.

Lemma table_keys_resolve_witness :
  findCarbonData (normalizeIngredientName "TOMATOES")
  = Factor (factor 2.1 "vegetables").
Proof.
  apply (table_keys_resolve_to_their_entries "tomatoes" _ "TOMATOES").
  - unfold CARBON_DATA. cbn [In]. do 21 right. left. reflexivity.
  - reflexivity.
Defined.

Lemma all_chars_strip_final_s p s :
  all_chars p s = true -> all_chars p (strip_final_s s) = true.
Proof.
  induction s as [|c s IH]; [trivial|].
  cbn [strip_final_s]. destruct s as [|d s].
  - destruct (Ascii.eqb c "s"); trivial.
  - intros Hcs. cbn [all_chars] in Hcs |- *.
    apply andb_true_iff in Hcs as [Hc Hs]. now rewrite Hc, (IH Hs).
Qed.

Lemma no_letter_toLowerCase s :
  no_letter s = true ->
  all_chars (fun c => negb (is_az c)) (toLowerCase s) = true.
Proof.
  unfold no_letter. induction s as [|c s IH]; simpl; [trivial|].
  intros [Hc Hs]%andb_true_iff. now rewrite Hc, (IH Hs).
Qed.

Lemma keep_spaces_only s :
  all_chars (fun c => negb (is_az c)) s = true ->
  all_chars is_space (keep (fun c => is_az c || is_space c) s) = true.
Proof.
  induction s as [|c s IH]; simpl; [trivial|].
  intros [Hc Hs]%andb_true_iff. apply negb_true_iff in Hc. rewrite Hc.
  cbn [orb]. destruct (is_space c) eqn:Hsp; simpl; [|now apply IH].
  now rewrite Hsp, (IH Hs).
Qed.

Lemma trimEnd_spaces s : all_chars is_space s = true -> trimEnd s = "".
Proof.
  induction s as [|c s IH]; simpl; [trivial|].
  intros [Hc Hs]%andb_true_iff. now rewrite Hc, (IH Hs).
Qed.

(** X4: a name without any letter ("123", "", "???") normalizes to the
    empty key, and the empty key, being contained in every key, takes the
    first entry of the table: beef, 60.0, "meat". *)
Theorem letterless_name_resolves_to_first_entry :
  forall n : string,
    no_letter n = true ->
    normalizeIngredientName n = ""
    /\ findCarbonData (normalizeIngredientName n) = Factor (factor 60.0 "meat").
Proof.
  intros n Hn.
  assert (E : normalizeIngredientName n = "").
  { unfold normalizeIngredientName, trim.
    rewrite trimEnd_spaces; [reflexivity|].
    apply keep_spaces_only, all_chars_strip_final_s, no_letter_toLowerCase, Hn. }
  split; [exact E|]. rewrite E. reflexivity.
Qed.

Lemma letterless_name_witness :
  normalizeIngredientName "12.5 %" = ""
  /\ findCarbonData (normalizeIngredientName "12.5 %")
     = Factor (factor 60.0 "meat").
Proof.
  apply letterless_name_resolves_to_first_entry. reflexivity.
Defined.

(* ================================================================== *)
(** ** Properties of the statistics *)

Lemma existsb_eqb_In (x : string) (s : list string) :
  existsb (String.eqb x) s = true <-> In x s.
Proof.
  rewrite existsb_exists. split.
  - intros [y [Hy E]]. apply String.eqb_eq in E. now subst.
  - intros Hx. exists x. split; [exact Hx|apply String.eqb_refl].
Qed.

Lemma In_Set_add (s : list string) (x y : string) :
  In y (Set_add s x) <-> In y s \/ y = x.
Proof.
  unfold Set_add. destruct (existsb (String.eqb x) s) eqn:E.
  - apply existsb_eqb_In in E. split; [tauto|].
    intros [Hy| ->]; assumption.
  - rewrite in_app_iff. simpl. intuition (subst; auto).
Qed.

Lemma NoDup_Set_add (s : list string) (x : string) :
  NoDup s -> NoDup (Set_add s x).
Proof.
  intros Hs. unfold Set_add. destruct (existsb (String.eqb x) s) eqn:E;
    [exact Hs|].
  assert (Hx : ~ In x s).
  { intros Hin. apply existsb_eqb_In in Hin. congruence. }
  clear E. induction Hs as [|a s Ha Hs IH]; simpl.
  - constructor; [intros []|constructor].
  - constructor.
    + rewrite in_app_iff. simpl. intros [Hin|[E|[]]]; [tauto|].
      subst. apply Hx. now left.
    + apply IH. intros Hin. apply Hx. now right.
Qed.

Lemma fold_Set_add (l acc : list string) :
  NoDup acc ->
  NoDup (fold_left Set_add l acc)
  /\ forall x, In x (fold_left Set_add l acc) <-> In x acc \/ In x l.
Proof.
  revert acc. induction l as [|a l IH]; intros acc Hacc; simpl.
  - split; [exact Hacc|]. intros x. tauto.
  - destruct (IH (Set_add acc a) (NoDup_Set_add acc a Hacc)) as [Hn Hin].
    split; [exact Hn|]. intros x. rewrite Hin, In_Set_add.
    split; intros Hx; intuition (subst; auto).
Qed.

Lemma new_Set_spec (l : list string) :
  NoDup (new_Set l) /\ forall x, In x (new_Set l) <-> In x l.
Proof.
  destruct (fold_Set_add l [] (NoDup_nil _)) as [Hn Hin].
  split; [exact Hn|]. intros x. unfold new_Set. rewrite Hin. simpl. tauto.
Qed.

(** X5: a set built from a list holds every element of the list once;
    so the statistics count 48 distinct keys and list each category of
    the table once, and nothing else. *)
Theorem statistics_describe_the_table :
  (forall l : list string,
      NoDup (new_Set l) /\ forall x, In x (new_Set l) <-> In x l)
  /\ totalIngredients getCarbonDataStats = 48%nat
  /\ NoDup (map fst CARBON_DATA)
  /\ NoDup (categories getCarbonDataStats)
  /\ (forall c : string,
         In c (categories getCarbonDataStats)
         <-> exists k f, In (k, f) CARBON_DATA /\ factor_category f = c).
Proof.
  pose proof new_Set_spec as Hset.
  split; [exact Hset|]. split; [vm_compute; reflexivity|]. split; [|split].
  - assert (E : map fst CARBON_DATA = new_Set (map fst CARBON_DATA))
      by (vm_compute; reflexivity).
    rewrite E. apply Hset.
  - apply Hset.
  - intros c.
    change (categories getCarbonDataStats)
      with (new_Set (map (fun kv => factor_category (snd kv)) CARBON_DATA)).
    remember (map (fun kv => factor_category (snd kv)) CARBON_DATA)
      as cats eqn:Ecats.
    destruct (Hset cats) as [_ Hin]. specialize (Hin c).
    remember (new_Set cats) as reported eqn:Er. clear Er.
    split.
    + intros Hc. apply (proj1 Hin) in Hc. rewrite Ecats in Hc.
      apply in_map_iff in Hc as [[k f] [E Hkf]]. now exists k, f.
    + intros [k [f [Hkf E]]]. apply (proj2 Hin). rewrite Ecats.
      apply in_map_iff. now exists (k, f).
Qed.

(** X6: every category the resolution chain assigns is "unknown" or one
    of the categories the statistics report. *)
Theorem resolved_category_is_reported :
  forall (n : string) (f : EmissionsFactor),
    findCarbonData n = Factor f ->
    factor_category f = "unknown"
    \/ In (factor_category f) (categories getCarbonDataStats).
Proof.
  intros n f. unfold findCarbonData, CARBON_DATA_get.
  assert (Htable : forall k g, In (k, g) CARBON_DATA ->
                               In (factor_category g)
                                  (categories getCarbonDataStats)).
  { intros k g Hin.
    change (categories getCarbonDataStats)
      with (new_Set (map (fun kv => factor_category (snd kv)) CARBON_DATA)).
    remember (map (fun kv => factor_category (snd kv)) CARBON_DATA)
      as cats eqn:Ecats.
    destruct (new_Set_spec cats) as [_ Hcats]. specialize (Hcats (factor_category g)).
    remember (new_Set cats) as reported eqn:Er. clear Er.
    apply (proj2 Hcats). rewrite Ecats.
    apply in_map_iff. now exists (k, g). }
  destruct (own_property CARBON_DATA n) as [g|] eqn:Hown.
  { intros [= <-]. right. eapply Htable, own_property_In, Hown. }
  destruct (inherited n); [discriminate|].
  destruct (partial_match n) as [[k g]|] eqn:Hp.
  { intros [= <-]. right. apply find_some in Hp as [Hin _].
    eapply Htable, Hin. }
  destruct (inferCategory n) as [c|]; [|intros [= <-]; now left].
  destruct (own_property categoryFallbacks c) as [v|] eqn:Hc;
    [|intros [= <-]; now left].
  destruct (Qeq_bool v 0); intros [= <-]; [now left|right].
  apply own_property_In in Hc. cbn [factor_category factor].
  assert (Hall : forallb (fun cv => existsb (String.eqb (fst cv))
                                      (categories getCarbonDataStats))
                         categoryFallbacks = true)
    by (vm_compute; reflexivity).
  remember (categories getCarbonDataStats) as reported eqn:Er. clear Er.
  rewrite forallb_forall in Hall. specialize (Hall _ Hc). cbn [fst] in Hall.
  exact (proj1 (existsb_eqb_In c reported) Hall).
Qed.

Lemma resolved_category_witness :
  factor_category (factor 1.8 "seasonings") = "unknown"
  \/ In (factor_category (factor 1.8 "seasonings"))
        (categories getCarbonDataStats).
Proof.
  apply (resolved_category_is_reported "seasoning"). reflexivity.
Defined.

(* ================================================================== *)
(** ** Unresolved names and NaN *)

Lemma inherited_not_own (n : string) :
  inherited n = true -> own_property CARBON_DATA n = None.
Proof.
  unfold inherited. intros Hn. apply existsb_exists in Hn as [k [Hk E]].
  apply String.eqb_eq in E. subst k.
  unfold Object_prototype in Hk. cbn [In] in Hk.
  repeat (destruct Hk as [<-|Hk]; [vm_compute; reflexivity|]).
  contradiction.
Qed.

Lemma inherited_normalized (s : string) :
  inherited (normalizeIngredientName s) = true ->
  normalizeIngredientName s = "constructor".
Proof.
  intros Hn. pose proof (normalized_chars s) as Hall.
  remember (normalizeIngredientName s) as n eqn:En. clear En.
  unfold inherited in Hn. apply existsb_exists in Hn as [k [Hk E]].
  apply String.eqb_eq in E. subst k.
  unfold Object_prototype in Hk. cbn [In] in Hk.
  destruct Hk as [<-|Hk]; [reflexivity|].
  repeat (destruct Hk as [<-|Hk]; [vm_compute in Hall; discriminate Hall|]).
  contradiction.
Qed.

(** X7: the resolution chain fails for exactly one normalized name.  An
    ingredient whose name normalizes to "constructor" gets the inherited
    member; every other ingredient gets a factor with a positive intensity
    and a named category. *)
Theorem resolution_fails_only_for_constructor :
  forall s : string,
    (normalizeIngredientName s = "constructor"
     /\ findCarbonData (normalizeIngredientName s) = Inherited "constructor")
    \/ (normalizeIngredientName s <> "constructor"
        /\ exists f,
            findCarbonData (normalizeIngredientName s) = Factor f
            /\ 0 < carbon_per_kg f /\ factor_category f <> "").
Proof.
  intros s. destruct (inherited (normalizeIngredientName s)) eqn:Hi.
  - left. apply inherited_normalized in Hi. rewrite Hi. now split.
  - right. split.
    + intros E. rewrite E in Hi. discriminate Hi.
    + destruct (findCarbonData_usable _ Hi) as [f [Hf Hu]].
      exists f. split; [exact Hf|now apply usable_spec].
Qed.

Module NaNFacts.

Lemma is_nan_of_spec (x : float) : Prim2SF x = S754_nan -> PrimFloat.is_nan x = true.
Proof.
  intros Hx. unfold PrimFloat.is_nan. now rewrite eqb_spec, Hx.
Qed.

Lemma add_nan_r (x y : float) :
  Prim2SF y = S754_nan -> Prim2SF (PrimFloat.add x y) = S754_nan.
Proof.
  intros Hy. rewrite add_spec, Hy. now destruct (Prim2SF x).
Qed.

Lemma add_nan_l (x y : float) :
  Prim2SF x = S754_nan -> Prim2SF (PrimFloat.add x y) = S754_nan.
Proof. intros Hx. now rewrite add_spec, Hx. Qed.

Lemma mul_nan_l (x y : float) :
  Prim2SF x = S754_nan -> Prim2SF (PrimFloat.mul x y) = S754_nan.
Proof. intros Hx. now rewrite mul_spec, Hx. Qed.

Lemma div_nan_l (x y : float) :
  Prim2SF x = S754_nan -> Prim2SF (PrimFloat.div x y) = S754_nan.
Proof. intros Hx. now rewrite div_spec, Hx. Qed.

Lemma round_nan (x : float) :
  Prim2SF x = S754_nan -> Prim2SF (Binary64.round x) = S754_nan.
Proof. intros Hx. unfold Binary64.round. now rewrite Hx. Qed.

Lemma round2_nan (x : float) :
  Prim2SF x = S754_nan -> Prim2SF (round2 x) = S754_nan.
Proof.
  intros Hx. unfold round2. cbn [div mul Math_round binary64].
  now apply div_nan_l, round_nan, mul_nan_l.
Qed.

Lemma fold_add_nan_acc (l : list float) (a : float) :
  Prim2SF a = S754_nan -> Prim2SF (fold_left PrimFloat.add l a) = S754_nan.
Proof.
  revert a. induction l as [|x l IH]; intros a Ha; simpl; [exact Ha|].
  now apply IH, add_nan_l.
Qed.

Lemma fold_add_nan (l : list float) (a : float) :
  Exists (fun x => Prim2SF x = S754_nan) l ->
  Prim2SF (fold_left PrimFloat.add l a) = S754_nan.
Proof.
  intros Hl. revert a. induction Hl as [x l Hx|x l _ IH]; intros a; simpl.
  - now apply fold_add_nan_acc, add_nan_r.
  - apply IH.
Qed.

End NaNFacts.

(** X8: one ingredient whose name normalizes to "constructor" makes its
    own carbon_kg and the total of the whole dish NaN, whatever the other
    ingredients are. *)
Theorem constructor_ingredient_makes_total_NaN :
  forall l : list RawIngredient,
    Exists (fun x => normalizeIngredientName (raw_name x) = "constructor") l ->
    Exists (fun i => PrimFloat.is_nan (carbon_kg i) = true)
           (calculateCarbonFootprint (num := float) l)
    /\ PrimFloat.is_nan
         (getTotalCarbonFootprint (calculateCarbonFootprint (num := float) l))
       = true.
Proof.
  intros l Hl.
  assert (Hnan : Exists (fun i : Ingredient float =>
                           Prim2SF (carbon_kg i) = S754_nan)
                        (calculateCarbonFootprint l)).
  { unfold calculateCarbonFootprint. induction Hl as [x l Hx|x l _ IH]; simpl.
    - left. unfold resolve. cbn [carbon_kg]. rewrite Hx.
      apply NaNFacts.round2_nan. cbn [mul binary64].
      apply NaNFacts.mul_nan_l. reflexivity.
    - right. exact IH. }
  split.
  - eapply Exists_impl; [|exact Hnan].
    intros i Hi. now apply NaNFacts.is_nan_of_spec.
  - apply NaNFacts.is_nan_of_spec. unfold getTotalCarbonFootprint.
    apply NaNFacts.round2_nan. rewrite fold_left_carbon_kg.
    cbn [add binary64]. apply NaNFacts.fold_add_nan.
    apply Exists_exists in Hnan as [i [Hin Hi]].
    apply Exists_exists. exists (carbon_kg i). split; [|exact Hi].
    apply in_map_iff. now exists i.
Qed.

Lemma constructor_ingredient_witness :
  PrimFloat.is_nan
    (getTotalCarbonFootprint
       (calculateCarbonFootprint (num := float)
          [raw "Beef" "150g" "meat"; raw "Constructors" "1 kg" "unknown"]))
  = true.
Proof.
  apply constructor_ingredient_makes_total_NaN.
  right. left. reflexivity.
Defined.

(* ================================================================== *)
(** ** The breakdown in binary64 *)

Module BreakdownFacts.
Import DoubleFacts ParserFacts.

Lemma CARBON_DATA_positive k f :
  In (k, f) CARBON_DATA -> positive_finite (lit (carbon_per_kg f)) = true.
Proof.
  intros Hin.
  assert (Hall : forallb (fun kf => positive_finite (lit (carbon_per_kg (snd kf))))
                         CARBON_DATA = true) by (vm_compute; reflexivity).
  rewrite forallb_forall in Hall. exact (Hall _ Hin).
Qed.

Lemma categoryFallbacks_positive c v :
  In (c, v) categoryFallbacks -> positive_finite (lit v) = true.
Proof.
  intros Hin.
  assert (Hall : forallb (fun cv => positive_finite (lit (snd cv)))
                         categoryFallbacks = true) by (vm_compute; reflexivity).
  rewrite forallb_forall in Hall. exact (Hall _ Hin).
Qed.

Lemma findCarbonData_positive n :
  inherited n = false ->
  positive_finite (per_kg (findCarbonData n)) = true.
Proof.
  intros Hn. unfold findCarbonData, CARBON_DATA_get. rewrite Hn.
  destruct (own_property CARBON_DATA n) as [f|] eqn:Hown.
  { eapply CARBON_DATA_positive, own_property_In, Hown. }
  destruct (partial_match n) as [[k f]|] eqn:Hp.
  { apply find_some in Hp as [Hin _]. eapply CARBON_DATA_positive, Hin. }
  destruct (inferCategory n) as [c|]; [|vm_compute; reflexivity].
  destruct (own_property categoryFallbacks c) as [v|] eqn:Hc;
    [|vm_compute; reflexivity].
  destruct (Qeq_bool v 0); [vm_compute; reflexivity|].
  eapply categoryFallbacks_positive, own_property_In, Hc.
Qed.

Lemma round2_nonneg (x : float) : nonneg x = true -> nonneg (round2 x) = true.
Proof.
  intros Hx. unfold round2. cbn [div mul Math_round binary64].
  apply div_nonneg; [|vm_compute; reflexivity].
  apply round_nonneg, mul_nonneg_r; [exact Hx|vm_compute; reflexivity].
Qed.

Lemma carbon_kg_nonneg (x : RawIngredient) :
  normalizeIngredientName (raw_name x) <> "constructor" ->
  nonneg (carbon_kg (resolve (num := float) x)) = true.
Proof.
  intros Hx.
  destruct (inherited (normalizeIngredientName (raw_name x))) eqn:Hi;
    [now apply inherited_normalized in Hi|].
  unfold resolve. cbn [carbon_kg]. apply round2_nonneg.
  cbn [mul binary64]. apply mul_nonneg_l.
  - apply findCarbonData_positive, Hi.
  - apply parsed_mass_double.
Qed.

Lemma fold_add_nonneg (l : list float) (a : float) :
  nonneg a = true -> Forall (fun x => nonneg x = true) l ->
  nonneg (fold_left PrimFloat.add l a) = true.
Proof.
  intros Ha Hl. revert a Ha.
  induction Hl as [|x l Hx _ IH]; intros a Ha; simpl; [exact Ha|].
  apply IH, add_nonneg; assumption.
Qed.

End BreakdownFacts.

(** X9: in binary64, when no ingredient name normalizes to "constructor",
    no carbon_kg and no total is NaN or below zero, whatever the names
    and the quantities are.  The total is the rounded sum and need not be
    the sum of the carbon_kg values shown: for rice at "37g" and sugar at
    "111 g" these are 0.1 and 0.2, their sum is the double
    0.30000000000000004, and the total is 0.3. *)
Theorem breakdown_is_never_negative :
  (forall l : list RawIngredient,
      Forall (fun x => normalizeIngredientName (raw_name x) <> "constructor") l ->
      Forall (fun i => PrimFloat.is_nan (carbon_kg i) = false
                       /\ PrimFloat.ltb (carbon_kg i) (lit 0) = false)
             (calculateCarbonFootprint (num := float) l)
      /\ PrimFloat.is_nan
           (getTotalCarbonFootprint (calculateCarbonFootprint (num := float) l))
         = false
      /\ PrimFloat.ltb
           (getTotalCarbonFootprint (calculateCarbonFootprint (num := float) l))
           (lit 0)
         = false)
  /\ map carbon_kg (calculateCarbonFootprint (num := float) rice_and_sugar)
     = [lit 0.1; lit 0.2]
  /\ fold_left add
       (map carbon_kg (calculateCarbonFootprint (num := float) rice_and_sugar))
       (lit 0)
     = lit 0.30000000000000004
  /\ getTotalCarbonFootprint (calculateCarbonFootprint (num := float) rice_and_sugar)
     = lit 0.3
  /\ PrimFloat.eqb (lit 0.30000000000000004) (lit 0.3) = false.
Proof.
  split; [|repeat split; vm_compute; reflexivity].
  intros l Hl.
  assert (Hall : Forall (fun i : Ingredient float => nonneg (carbon_kg i) = true)
                        (calculateCarbonFootprint l)).
  { unfold calculateCarbonFootprint.
    induction Hl as [|x l Hx _ IH]; cbn [map]; constructor;
      [now apply BreakdownFacts.carbon_kg_nonneg|exact IH]. }
  assert (Htotal : nonneg (getTotalCarbonFootprint
                             (calculateCarbonFootprint (num := float) l)) = true).
  { unfold getTotalCarbonFootprint. apply BreakdownFacts.round2_nonneg.
    rewrite fold_left_carbon_kg. cbn [add binary64].
    apply BreakdownFacts.fold_add_nonneg; [vm_compute; reflexivity|].
    apply Forall_map. exact Hall. }
  split; [|split].
  - eapply Forall_impl; [|exact Hall].
    intros i Hi.
    split; [now apply DoubleFacts.nonneg_not_nan
           |now apply DoubleFacts.nonneg_not_below_zero].
  - now apply DoubleFacts.nonneg_not_nan.
  - now apply DoubleFacts.nonneg_not_below_zero.
Qed.

Lemma breakdown_is_never_negative_witness :
  PrimFloat.is_nan
    (getTotalCarbonFootprint (calculateCarbonFootprint (num := float) example_dish))
  = false
  /\ PrimFloat.ltb
       (getTotalCarbonFootprint (calculateCarbonFootprint (num := float) example_dish))
       (lit 0)
     = false.
Proof.
  apply (proj1 breakdown_is_never_negative example_dish).
  repeat constructor; intros E; vm_compute in E; discriminate E.
Defined.

(* ================================================================== *)
(** ** Further properties of the validators and of [analyzeDish] *)

Section ValidatorFacts.

Context {num : Type} `{JsNumber num}.

(** X10: the vision validator accepts exactly the payloads that the text
    validator accepts and whose dish_name is a non-empty string. *)
Theorem vision_validator_adds_dish_name :
  forall response : json,
    validateVisionResponse response = Valid
    <-> validateLLMResponse response = Valid
        /\ nonempty_string (get response "dish_name") = true.
Proof.
  intros response. unfold validateVisionResponse, validateLLMResponse,
                     nonempty_string.
  destruct (not_an_object response); [split; [discriminate|intros [[=] _]]|].
  destruct (get response "dish_name") as [[| | |[|c d]| |]|];
    try (split; [discriminate|intros [_ [=]]]).
  destruct (get response "ingredients") as [[| | | |items|]|];
    try (split; [discriminate|intros [[=] _]]).
  destruct (bad_confidence (get response "confidence"));
    [split; [discriminate|intros [[=] _]]|].
  split; [intros Hv; now split|now intros [Hv _]].
Qed.

Lemma check_ingredients_typed (l : list RawIngredient) :
  check_ingredients (map json_of_raw l) = Valid
  <-> forallb nonempty_fields l = true.
Proof.
  induction l as [|x l IH]; [split; reflexivity|].
  destruct x as [n q c].
  change (check_ingredients (map json_of_raw
                               ({| raw_name := n; estimated_quantity := q;
                                   raw_category := c |} :: l)))
    with (if negb (negb (is_empty n)) || negb (negb (is_empty q))
             || negb (negb (is_empty c))
          then Throws "Each ingredient must have name, estimated_quantity, and category"
          else check_ingredients (map json_of_raw l)).
  cbn [forallb]. unfold nonempty_fields at 1.
  cbn [raw_name estimated_quantity raw_category].
  destruct (is_empty n); cbn [negb orb andb];
    [split; intros E; discriminate E|].
  destruct (is_empty q); cbn [negb orb andb];
    [split; intros E; discriminate E|].
  destruct (is_empty c); cbn [negb orb andb];
    [split; intros E; discriminate E|].
  exact IH.
Qed.

(** X11: a response typed as the interface says is accepted exactly when
    its confidence is neither below 0 nor above 1 and no ingredient field
    is empty; an accepted one is passed on unchanged and its estimate is
    the typed computation on its ingredients. *)
Theorem typed_response_is_accepted :
  forall (r : LLMResponse) (d : string),
    (validateLLMResponse (json_of_LLMResponse r) = Valid
     <-> lt (lit (confidence r)) (lit 0) = false
         /\ lt (lit 1) (lit (confidence r)) = false
         /\ forallb nonempty_fields (ingredients r) = true)
    /\ (validateLLMResponse (json_of_LLMResponse r) = Valid ->
        analyzeDish (Parsed (json_of_LLMResponse r)) d = json_of_LLMResponse r
        /\ estimate_dish (Parsed (json_of_LLMResponse r)) d
           = Some {| dish := d;
                     estimated_carbon_kg :=
                       getTotalCarbonFootprint
                         (calculateCarbonFootprint (ingredients r));
                     breakdown := calculateCarbonFootprint (ingredients r);
                     estimate_confidence := lit (confidence r);
                     methodology :=
                       "LLM ingredient inference + carbon database lookup" |}).
Proof.
  intros r d. split.
  - unfold validateLLMResponse, json_of_LLMResponse, bad_confidence.
    cbn [not_an_object get own_property String.eqb Ascii.eqb Bool.eqb].
    destruct (lt (lit (confidence r)) (lit 0)); cbn [orb];
      [split; [discriminate|intros [[=] _]]|].
    destruct (lt (lit 1) (lit (confidence r)));
      [split; [discriminate|intros [_ [[=] _]]]|].
    rewrite check_ingredients_typed. tauto.
  - intros Hv.
    assert (Ha : analyzeDish (Parsed (json_of_LLMResponse r)) d
                 = json_of_LLMResponse r)
      by (unfold analyzeDish; now rewrite Hv).
    split; [exact Ha|]. unfold estimate_dish. rewrite Ha.
    cbn [json_of_LLMResponse get own_property String.eqb Ascii.eqb Bool.eqb].
    now rewrite calculateCarbonFootprint_parsed_raw.
Qed.

Lemma calculateCarbonFootprint_parsed_None (items : list json) :
  calculateCarbonFootprint_parsed items = None
  <-> forallb string_fields items = false.
Proof.
  induction items as [|x items IH]; [split; discriminate|].
  cbn [calculateCarbonFootprint_parsed forallb].
  unfold resolve_parsed, string_fields at 1.
  destruct (get x "name") as [[| | |n| |]|]; cbn [andb];
    try (split; reflexivity).
  destruct (get x "estimated_quantity") as [[| | |q| |]|]; cbn [andb];
    try (split; reflexivity).
  destruct (calculateCarbonFootprint_parsed items);
    [split; [discriminate|]|exact IH].
  intros Hf. apply IH in Hf. discriminate Hf.
Qed.

(** X12: the estimate of a dish throws in one case only: the payload was
    accepted by the validator and the name or the quantity of one of its
    ingredients is not a string. *)
Theorem estimate_throws_only_on_accepted_ill_typed :
  forall (completion : Completion) (d : string),
    estimate_dish completion d = None
    <-> exists payload items,
          completion = Parsed payload
          /\ validateLLMResponse payload = Valid
          /\ get payload "ingredients" = Some (JArr items)
          /\ forallb string_fields items = false.
Proof.
  intros completion d. split.
  - intros Hnone. destruct (rejected completion) eqn:Hr.
    { destruct (estimate_dish_rejected completion d Hr) as [e He].
      congruence. }
    destruct completion as [| | |p]; try discriminate Hr.
    cbn [rejected] in Hr.
    destruct (validateLLMResponse p) eqn:Hv; [|discriminate Hr].
    destruct (validateLLMResponse_valid p Hv)
      as (items & q & _ & Hi & Hc & _).
    exists p, items. repeat split; try assumption.
    unfold estimate_dish, analyzeDish in Hnone. rewrite Hv, Hi, Hc in Hnone.
    apply calculateCarbonFootprint_parsed_None.
    destruct (calculateCarbonFootprint_parsed items); [discriminate|reflexivity].
  - intros (p & items & -> & Hv & Hi & Hs).
    apply calculateCarbonFootprint_parsed_None in Hs.
    destruct (validateLLMResponse_valid p Hv)
      as (items' & q & _ & Hi' & Hc & _).
    unfold estimate_dish, analyzeDish. rewrite Hv, Hi, Hc, Hs. reflexivity.
Qed.

(** X13: at run time, too, the category is never read: two parsed
    ingredient arrays that agree in every name and quantity give the same
    breakdown, or throw both, whatever JSON values their categories are. *)
Theorem parsed_category_is_ignored :
  forall l1 l2 : list json,
    Forall2 (fun a b => get a "name" = get b "name"
                        /\ get a "estimated_quantity"
                           = get b "estimated_quantity") l1 l2 ->
    calculateCarbonFootprint_parsed l1 = calculateCarbonFootprint_parsed l2.
Proof.
  intros l1 l2 Hl. induction Hl as [|a b l1 l2 [Hn Hq] _ IH]; [reflexivity|].
  cbn [calculateCarbonFootprint_parsed]. rewrite IH.
  assert (E : resolve_parsed a = resolve_parsed b).
  { unfold resolve_parsed. rewrite Hn, Hq.
    destruct (get b "name") as [[| | |n| |]|]; reflexivity. }
  now rewrite E.
Qed.

End ValidatorFacts.

Lemma estimate_throws_witness :
  estimate_dish (num := float) (Parsed numeric_name_payload) "Stew" = None.
Proof.
  apply estimate_throws_only_on_accepted_ill_typed.
  eexists. eexists. repeat split; reflexivity.
Defined.

Lemma typed_response_witness :
  analyzeDish (num := float) (Parsed (json_of_LLMResponse burger_response))
    "Veggie bowl"
  = json_of_LLMResponse burger_response.
Proof.
  refine (proj1 (proj2 (typed_response_is_accepted burger_response
                          "Veggie bowl") _)).
  vm_compute. reflexivity.
Defined.

Lemma parsed_category_witness :
  calculateCarbonFootprint_parsed (num := float)
    [JObj [("name", JStr "Rice"); ("estimated_quantity", JStr "200g");
           ("category", JStr "grains")]]
  = calculateCarbonFootprint_parsed
      [JObj [("name", JStr "Rice"); ("estimated_quantity", JStr "200g");
             ("category", JNum 7)]].
Proof.
  apply parsed_category_is_ignored. repeat constructor.
Defined.

(** X14: whatever the completion, what [analyzeDish] returns satisfies
    the text validator, and what [analyzeImage] returns satisfies the
    vision validator: the canned responses meet the contract they stand in
    for. *)
Theorem analysis_results_are_valid :
  forall (completion : Completion) (dishName : string),
    validateLLMResponse (num := float) (analyzeDish completion dishName) = Valid
    /\ validateVisionResponse (num := float) (analyzeImage completion) = Valid.
Proof.
  intros completion dishName. split.
  - assert (Hcanned : validateLLMResponse (num := float)
                        (json_of_LLMResponse (getFallbackResponse dishName))
                      = Valid).
    { rewrite getFallbackResponse_order.
      destruct (includes (toLowerCase dishName) "pizza");
        [vm_compute; reflexivity|].
      destruct (includes (toLowerCase dishName) "burger");
        [vm_compute; reflexivity|].
      destruct (includes (toLowerCase dishName) "pasta");
        vm_compute; reflexivity. }
    unfold analyzeDish. destruct completion as [| | |p]; try exact Hcanned.
    destruct (validateLLMResponse p) eqn:Hv; [exact Hv|exact Hcanned].
  - unfold analyzeImage.
    assert (Hcanned : validateVisionResponse (num := float)
                        (json_of_VisionResponse getFallbackVisionResponse)
                      = Valid) by (vm_compute; reflexivity).
    destruct completion as [| | |p]; try exact Hcanned.
    destruct (validateVisionResponse p) eqn:Hv; [exact Hv|exact Hcanned].
Qed.

(* ================================================================== *)
(** ** Properties of the routes *)

Lemma is_empty_spec (s : string) : is_empty s = true <-> s = "".
Proof. destruct s; split; intros E; (reflexivity || discriminate E). Qed.

Lemma blank_dish (d : string) :
  is_empty d || is_empty (trim d) = is_empty (trim d).
Proof. now destruct d. Qed.

Section RouteFacts.

Context {num : Type} `{JsNumber num}.

Lemma estimate_dish_canned (completion : Completion) (d : string) :
  rejected completion = true ->
  estimate_dish completion d = Some (estimate_of d (getFallbackResponse d)).
Proof.
  intros Hr. unfold estimate_dish. rewrite (analyzeDish_rejected _ _ Hr).
  cbn [json_of_LLMResponse get own_property String.eqb Ascii.eqb Bool.eqb].
  now rewrite calculateCarbonFootprint_parsed_raw.
Qed.

(** X15: a batch is answered exactly when it has between 1 and 10 dishes
    and none of them is blank, whatever the completions are; a batch that
    is refused is refused with status 400. *)
Theorem batch_is_answered_iff_well_formed :
  forall (llm : nat -> Completion) (dishes : list string),
    ((exists estimates : list (BatchItem num),
         estimate_batch llm dishes = inr estimates)
     <-> (1 <= length dishes <= 10)%nat
         /\ Forall (fun d => trim d <> "") dishes)
    /\ (forall e : AppError,
           estimate_batch (num := num) llm dishes = inl e ->
           statusCode e = 400%Z).
Proof.
  intros llm dishes. unfold estimate_batch.
  assert (Hblank : existsb (fun dish => is_empty dish || is_empty (trim dish))
                           dishes = false
                   <-> Forall (fun d => trim d <> "") dishes).
  { induction dishes as [|d dishes IH]; [split; [constructor|reflexivity]|].
    cbn [existsb]. rewrite blank_dish, orb_false_iff, IH. split.
    - intros [Hd Hl]. constructor; [|exact Hl].
      intros E. apply is_empty_spec in E. congruence.
    - intros Hall. inversion Hall as [|? ? Hd Hl]; subst. split; [|exact Hl].
      destruct (is_empty (trim d)) eqn:E; [|reflexivity].
      now apply is_empty_spec in E. }
  destruct dishes as [|d0 dishes0] eqn:Ed.
  { cbn [is_nil]. split.
    - split; [intros [x [=]]|]. cbn [length]. intros [Hlen _]. lia.
    - now intros e [= <-]. }
  rewrite <- Ed in *. assert (Hnil : is_nil dishes = false) by now subst.
  rewrite Hnil. assert (Hpos : (1 <= length dishes)%nat) by (subst; simpl; lia).
  destruct (10 <? length dishes)%nat eqn:Hlen.
  { apply Nat.ltb_lt in Hlen. split.
    - split; [intros [x [=]]|]. intros [Hl _]. lia.
    - now intros e [= <-]. }
  apply Nat.ltb_ge in Hlen.
  destruct (existsb _ dishes) eqn:Hex.
  - split.
    + split; [intros [x [=]]|]. intros [_ Hall].
      apply Hblank in Hall. discriminate Hall.
    + now intros e [= <-].
  - split; [|intros e [=]]. split; [|intros _; eauto].
    intros _. split; [lia|]. now apply Hblank.
Qed.

(** X16: in a batch, an inference call that fails or whose payload is
    rejected never makes its dish a failure: the item of that dish is the
    estimate of the canned response for its trimmed name. *)
Theorem batch_item_of_failed_inference :
  forall (llm : nat -> Completion) (dishes : list string)
         (estimates : list (BatchItem num)) (i : nat) (d : string),
    estimate_batch llm dishes = inr estimates ->
    nth_error dishes i = Some d ->
    rejected (llm i) = true ->
    nth_error estimates i
    = Some (Estimated (estimate_of (trim d) (getFallbackResponse (trim d)))).
Proof.
  intros llm dishes estimates i d Hb Hd Hr.
  rewrite (estimate_batch_inr llm dishes estimates Hb).
  rewrite (nth_error_batch llm dishes i d Hd).
  unfold batch_item. now rewrite (estimate_dish_canned _ _ Hr).
Qed.

(** X17: the two text routes agree.  For a dish of at most 200 characters
    that is not blank, the single route responds with an estimate exactly
    when the batch of that one dish holds this estimate, and it throws a
    TypeError exactly when the batch holds the failure entry. *)
Theorem single_route_agrees_with_batch :
  forall (llm : nat -> Completion) (d : string),
    (String.length d <= 200)%nat ->
    trim d <> "" ->
    (forall e : CarbonEstimate num,
        estimate_route (llm 0%nat) d = Responds e
        <-> estimate_batch llm [d] = inr [Estimated e])
    /\ (estimate_route (llm 0%nat) d = Crashes
        <-> estimate_batch llm [d] = inr [failed_item d]).
Proof.
  intros llm d Hlen Hd.
  assert (Hne : is_empty (trim d) = false).
  { destruct (is_empty (trim d)) eqn:E; [|reflexivity].
    now apply is_empty_spec in E. }
  assert (Hd1 : (1 <= String.length d)%nat).
  { destruct d; [now elim Hd|simpl; lia]. }
  assert (Hroute : estimate_route (llm 0%nat) d
                   = match estimate_dish (llm 0%nat) (trim d) with
                     | Some response => Responds response
                     | None => Crashes
                     end).
  { unfold estimate_route, estimateRequestSchema.
    destruct (String.length d <? 1)%nat eqn:E1;
      [apply Nat.ltb_lt in E1; lia|].
    destruct (200 <? String.length d)%nat eqn:E2;
      [apply Nat.ltb_lt in E2; lia|].
    cbn [app]. now rewrite Hne. }
  assert (Hbatch : estimate_batch llm [d]
                   = inr [format_result d
                            (estimate_dish (llm 0%nat) (trim d))]).
  { unfold estimate_batch. cbn [is_nil length Nat.ltb Nat.leb existsb].
    rewrite blank_dish, Hne. reflexivity. }
  rewrite Hroute, Hbatch.
  destruct (estimate_dish (llm 0%nat) (trim d)) as [e0|]; cbn [format_result].
  - split.
    + intros e. split; [now intros [= <-]|now intros [= <-]].
    + split; discriminate.
  - split.
    + intros e. split; discriminate.
    + split; reflexivity.
Qed.

(** X18: the single route refuses the empty name and every name of more
    than 200 characters by the schema, with the length taken before
    trimming, and a blank name by its own check, all with status 400; for
    any other name a failed or rejected inference is answered from the
    canned response for the trimmed name. *)
Theorem single_route_outcomes :
  forall (completion : Completion) (d : string),
    (d = "" ->
     estimate_route (num := num) completion d
     = Raises {| message := "Validation failed: Dish name is required";
                 statusCode := 400 |})
    /\ ((200 < String.length d)%nat ->
        estimate_route (num := num) completion d
        = Raises {| message := "Validation failed: Dish name too long";
                    statusCode := 400 |})
    /\ (d <> "" -> (String.length d <= 200)%nat -> trim d = "" ->
        estimate_route (num := num) completion d
        = Raises {| message := "Dish name cannot be empty";
                    statusCode := 400 |})
    /\ ((String.length d <= 200)%nat -> trim d <> "" ->
        rejected completion = true ->
        estimate_route completion d
        = Responds (estimate_of (trim d) (getFallbackResponse (trim d)))).
Proof.
  intros completion d. unfold estimate_route, estimateRequestSchema.
  split; [intros ->; reflexivity|].
  split.
  { intros Hlong. apply Nat.ltb_lt in Hlong. rewrite Hlong.
    destruct (String.length d <? 1)%nat eqn:E1; [|reflexivity].
    apply Nat.ltb_lt in E1. apply Nat.ltb_lt in Hlong. lia. }
  split.
  - intros Hd Hlen Hblank.
    destruct (String.length d <? 1)%nat eqn:E1;
      [apply Nat.ltb_lt in E1; destruct d; [now elim Hd|simpl in E1; lia]|].
    destruct (200 <? String.length d)%nat eqn:E2;
      [apply Nat.ltb_lt in E2; lia|].
    cbn [app]. now rewrite Hblank.
  - intros Hlen Hd Hr.
    destruct (String.length d <? 1)%nat eqn:E1;
      [apply Nat.ltb_lt in E1; destruct d; [now elim Hd|simpl in E1; lia]|].
    destruct (200 <? String.length d)%nat eqn:E2;
      [apply Nat.ltb_lt in E2; lia|].
    cbn [app]. destruct (is_empty (trim d)) eqn:E;
      [now apply is_empty_spec in E|].
    now rewrite (estimate_dish_canned _ _ Hr).
Qed.

End RouteFacts.


Lemma batch_is_answered_witness :
  statusCode {| message := "Dishes array is required and cannot be empty";
                statusCode := 400 |} = 400%Z
  /\ exists estimates : list (BatchItem float),
       estimate_batch sample_llm sample_dishes = inr estimates.
Proof.
  split.
  - apply (proj2 (batch_is_answered_iff_well_formed (num := float)
                    sample_llm [])).
    reflexivity.
  - apply (proj1 (batch_is_answered_iff_well_formed (num := float)
                    sample_llm sample_dishes)).
    split; [simpl; lia|].
    repeat constructor; intros E; vm_compute in E; discriminate E.
Defined.

Lemma batch_item_of_failed_inference_witness :
  nth_error (map (fun id => batch_item (num := float) sample_llm
                              (fst id) (snd id))
                 (indexed 0 sample_dishes)) 0
  = Some (Estimated (estimate_of "Pizza Margherita"
                       (getFallbackResponse "Pizza Margherita"))).
Proof.
  exact (batch_item_of_failed_inference (num := float) sample_llm sample_dishes
           _ 0 "Pizza Margherita" eq_refl eq_refl eq_refl).
Defined.

Lemma single_route_agrees_witness :
  estimate_batch (num := float) sample_llm ["Pizza Margherita"]
  = inr [Estimated (estimate_of "Pizza Margherita" pizza_response)].
Proof.
  apply (proj1 (single_route_agrees_with_batch (num := float) sample_llm
                  "Pizza Margherita" ltac:(simpl; lia)
                  ltac:(intros E; vm_compute in E; discriminate E))).
  reflexivity.
Defined.

Lemma single_route_outcomes_witness :
  estimate_route (num := float) NotJson "  Cheeseburger "
  = Responds (estimate_of "Cheeseburger" (getFallbackResponse "Cheeseburger")).
Proof.
  apply (proj2 (proj2 (proj2 (single_route_outcomes (num := float) NotJson
                                "  Cheeseburger ")))).
  - simpl. lia.
  - intros E. vm_compute in E. discriminate E.
  - reflexivity.
Defined.


Section ImageRouteFacts.

Context {num : Type} `{JsNumber num}.

(** X19: how [POST /estimate/image] ends, the upload middleware included.
    A request without a file part is refused with status 400, "Image file
    is required"; a file part in a field other than "image" with status
    400, "Invalid file field name"; a file of a type outside the list of
    the filter with status 400, whatever its size; a file of an accepted
    type with 10 MB or more with status 413, "File size too large".  A
    file that passes the middleware always passes [validateImageFile],
    which on its own accepts exactly the files of at most 10 MB of an
    accepted type; and for such a file a failed or rejected analysis is
    answered with the estimate of the canned vision response, dish
    "Unknown Dish", confidence 0.3. *)
Theorem image_route_outcomes :
  forall (development : bool) (p : FilePart) (completion : Completion),
    post_estimate_image (num := num) None completion
    = PassedOn (ThrownApp {| message := "Image file is required";
                           statusCode := 400 |})
    /\ (fieldname p <> "image" ->
        exists error,
          post_estimate_image (num := num) (Some p) completion = PassedOn error
          /\ api_statusCode (errorHandler development error) = 400%Z
          /\ api_message (errorHandler development error)
             = "Invalid file field name")
    /\ (fieldname p = "image" -> fileFilter (mimetype (part p)) = false ->
        post_estimate_image (num := num) (Some p) completion
        = PassedOn (ThrownApp
                    {| message :=
                         "Invalid file type. Only JPEG, PNG, and WebP are allowed.";
                       statusCode := 400 |}))
    /\ (fieldname p = "image" -> fileFilter (mimetype (part p)) = true ->
        (10485760 <= size (part p))%Z ->
        exists error,
          post_estimate_image (num := num) (Some p) completion = PassedOn error
          /\ api_statusCode (errorHandler development error) = 413%Z
          /\ api_message (errorHandler development error)
             = "File size too large")
    /\ isValid (validateImageFile (part p))
       = (size (part p) <=? 10485760)%Z && fileFilter (mimetype (part p))
    /\ (fieldname p = "image" -> fileFilter (mimetype (part p)) = true ->
        (size (part p) < 10485760)%Z ->
        upload_single (Some p) = inr (Some (part p))
        /\ isValid (validateImageFile (part p)) = true
        /\ (rejected_vision completion = true ->
            post_estimate_image (Some p) completion
            = Sent
                {| dish := "Unknown Dish";
                   estimated_carbon_kg :=
                     getTotalCarbonFootprint
                       (calculateCarbonFootprint
                          (vision_ingredients getFallbackVisionResponse));
                   breakdown :=
                     calculateCarbonFootprint
                       (vision_ingredients getFallbackVisionResponse);
                   estimate_confidence := lit 0.3;
                   methodology :=
                     "Computer vision analysis + carbon database lookup" |})).
Proof.
  intros development p completion. split; [reflexivity|].
  assert (Hlimit : (10 * 1024 * 1024 = 10485760)%Z) by reflexivity.
  assert (Hvalid : isValid (validateImageFile (part p))
                   = (size (part p) <=? 10485760)%Z
                     && fileFilter (mimetype (part p))).
  { unfold validateImageFile. rewrite Hlimit, Z.gtb_ltb.
    change (existsb (String.eqb (mimetype (part p))) allowedTypes)
      with (fileFilter (mimetype (part p))).
    destruct (Z.leb_spec (size (part p)) 10485760) as [Hs|Hs].
    - apply Z.ltb_ge in Hs. rewrite Hs.
      now destruct (fileFilter (mimetype (part p))).
    - apply Z.ltb_lt in Hs. now rewrite Hs. }
  split.
  { intros Hfield. apply String.eqb_neq in Hfield.
    exists (ThrownError "MulterError" "Unexpected field" false).
    unfold post_estimate_image, upload_single. rewrite Hfield.
    now destruct development. }
  split.
  { intros Hfield Hf. apply String.eqb_eq in Hfield.
    unfold post_estimate_image, upload_single. now rewrite Hfield, Hf. }
  split.
  { intros Hfield Hf Hs. apply String.eqb_eq in Hfield.
    exists (ThrownError "MulterError" "File too large" false).
    unfold post_estimate_image, upload_single. rewrite Hfield, Hf, Hlimit.
    apply Z.leb_le in Hs. rewrite Hs. now destruct development. }
  split; [exact Hvalid|].
  intros Hfield Hf Hs. apply String.eqb_eq in Hfield.
  assert (Hup : upload_single (Some p) = inr (Some (part p))).
  { unfold upload_single. rewrite Hfield, Hf, Hlimit.
    apply Z.leb_gt in Hs. now rewrite Hs. }
  assert (Hv : isValid (validateImageFile (part p)) = true).
  { rewrite Hvalid, Hf.
    assert (Hle : (size (part p) <=? 10485760)%Z = true)
      by (apply Z.leb_le; lia).
    now rewrite Hle. }
  split; [exact Hup|]. split; [exact Hv|].
  intros Hr. unfold post_estimate_image. rewrite Hup.
  unfold estimate_image. rewrite Hv. cbn [negb].
  assert (Ha : analyzeImage completion
               = json_of_VisionResponse getFallbackVisionResponse).
  { unfold rejected_vision in Hr. unfold analyzeImage.
    destruct completion as [| | |payload]; try reflexivity.
    destruct (validateVisionResponse payload); [discriminate Hr|reflexivity]. }
  rewrite Ha.
  cbn [json_of_VisionResponse get own_property String.eqb Ascii.eqb Bool.eqb
       dish_name getFallbackVisionResponse vision_confidence].
  now rewrite calculateCarbonFootprint_parsed_raw.
Qed.

(** X21: an [AppError] raised by one of the three routes is answered with
    status 400 and the message it was raised with, and a request for an
    unknown route with status 404 and the route in the message. *)
Theorem raised_errors_are_answered_as_raised :
  forall (development : bool) (llm : nat -> Completion)
         (dishes : list string) (completion : Completion) (d : string)
         (file : option UploadedFile) (url : string) (e : AppError),
    (estimate_batch (num := num) llm dishes = inl e
     \/ estimate_route (num := num) completion d = Raises e
     \/ estimate_image (num := num) file completion = Raises e ->
     api_statusCode (errorHandler development (ThrownApp e)) = 400%Z
     /\ api_message (errorHandler development (ThrownApp e)) = message e)
    /\ api_statusCode (errorHandler development (notFoundHandler url)) = 404%Z
    /\ api_message (errorHandler development (notFoundHandler url))
       = "Route " ++ url ++ " not found".
Proof.
  intros development llm dishes completion d file url e.
  split; [|split; reflexivity].
  intros Hraised. split; [|reflexivity].
  cbn [errorHandler error_status_message api_statusCode].
  destruct Hraised as [Hb|[Hr|Hi]].
  - unfold estimate_batch in Hb.
    destruct (is_nil dishes); [now injection Hb as <-|].
    destruct (10 <? length dishes)%nat; [now injection Hb as <-|].
    destruct (existsb _ dishes); [now injection Hb as <-|discriminate Hb].
  - unfold estimate_route in Hr.
    destruct (estimateRequestSchema d); [|now injection Hr as <-].
    destruct (is_empty (trim d)); [now injection Hr as <-|].
    destruct (estimate_dish completion (trim d)); discriminate Hr.
  - unfold estimate_image in Hi.
    destruct file as [f|]; [|now injection Hi as <-].
    destruct (negb (isValid (validateImageFile f)));
      [now injection Hi as <-|].
    destruct (get (analyzeImage completion) "ingredients")
      as [[| | | |items|]|]; try discriminate Hi.
    destruct (get (analyzeImage completion) "dish_name")
      as [[| | |dn| |]|]; try discriminate Hi.
    destruct (get (analyzeImage completion) "confidence")
      as [[| |c| | |]|]; try discriminate Hi.
    destruct (calculateCarbonFootprint_parsed items); discriminate Hi.
Qed.

End ImageRouteFacts.

(** X20: what [errorHandler] answers.  An [AppError] is answered with its
    own status and message, whatever the message says.  Any other error
    that is not a validation error is answered with one of seven fixed
    pairs of status and message, so that outside development nothing of
    its own message is passed on; with none of the five patterns in its
    message and no parse failure it is answered with status 500. *)
Theorem error_handler_answers :
  forall (development : bool),
    (forall e : AppError,
        api_statusCode (errorHandler development (ThrownApp e)) = statusCode e
        /\ api_message (errorHandler development (ThrownApp e)) = message e)
    /\ (forall (name msg : string) (parse_failure : bool),
           name <> "ValidationError" ->
           In (api_statusCode
                 (errorHandler development (ThrownError name msg parse_failure)),
               api_message
                 (errorHandler development (ThrownError name msg parse_failure)))
              fixed_error_answers
           /\ (development = false ->
               details (errorHandler development
                          (ThrownError name msg parse_failure)) = None)
           /\ (parse_failure = false ->
               existsb (includes msg)
                       ["File too large"; "Unexpected field"; "OpenAI";
                        "rate limit"; "timeout"] = false ->
               api_statusCode
                 (errorHandler development (ThrownError name msg parse_failure))
               = 500%Z)).
Proof.
  intros development. split; [intros e; split; reflexivity|].
  intros name msg parse_failure Hname.
  assert (Hv : String.eqb name "ValidationError" = false).
  { destruct (String.eqb_spec name "ValidationError"); [contradiction|trivial]. }
  unfold errorHandler, error_status_message, fixed_error_answers.
  rewrite Hv. split; [|split].
  - destruct parse_failure; [cbn; tauto|].
    destruct (includes msg "File too large"); [cbn; tauto|].
    destruct (includes msg "Unexpected field"); [cbn; tauto|].
    destruct (includes msg "OpenAI"); [cbn; tauto|].
    destruct (includes msg "rate limit"); [cbn; tauto|].
    destruct (includes msg "timeout"); cbn; tauto.
  - intros ->.
    destruct parse_failure; [reflexivity|].
    destruct (includes msg "File too large"); [reflexivity|].
    destruct (includes msg "Unexpected field"); [reflexivity|].
    destruct (includes msg "OpenAI"); [reflexivity|].
    destruct (includes msg "rate limit"); [reflexivity|].
    destruct (includes msg "timeout"); reflexivity.
  - intros -> Hnone. cbn [existsb] in Hnone.
    repeat (apply orb_false_iff in Hnone as [? Hnone]).
    repeat match goal with
           | Hx : includes msg _ = false |- _ => rewrite Hx; clear Hx
           end.
    reflexivity.
Qed.

Lemma image_route_outcomes_witness :
  (exists error,
      post_estimate_image (num := float)
        (Some {| fieldname := "image";
                 part := {| size := 10485760; mimetype := "image/png" |} |})
        CallFails
      = PassedOn error
      /\ api_statusCode (errorHandler false error) = 413%Z
      /\ api_message (errorHandler false error) = "File size too large")
  /\ post_estimate_image (num := float)
       (Some {| fieldname := "image";
                part := {| size := 2048; mimetype := "image/png" |} |})
       CallFails
     = Sent
         {| dish := "Unknown Dish";
            estimated_carbon_kg :=
              getTotalCarbonFootprint
                (calculateCarbonFootprint
                   (vision_ingredients getFallbackVisionResponse));
            breakdown :=
              calculateCarbonFootprint
                (vision_ingredients getFallbackVisionResponse);
            estimate_confidence := lit 0.3;
            methodology := "Computer vision analysis + carbon database lookup" |}.
Proof.
  split.
  - apply (proj1 (proj2 (proj2 (proj2
             (image_route_outcomes (num := float) false
                {| fieldname := "image";
                   part := {| size := 10485760; mimetype := "image/png" |} |}
                CallFails))))).
    + reflexivity.
    + reflexivity.
    + cbn [size part]. lia.
  - exact (proj2 (proj2
             ((proj2 (proj2 (proj2 (proj2 (proj2
                 (image_route_outcomes (num := float) false
                    {| fieldname := "image";
                       part := {| size := 2048; mimetype := "image/png" |} |}
                    CallFails))))))
                eq_refl eq_refl eq_refl))
             eq_refl).
Defined.

Lemma raised_errors_witness :
  api_statusCode
    (errorHandler false
       (ThrownApp {| message := "Image file is required"; statusCode := 400 |}))
  = 400%Z
  /\ api_message
       (errorHandler false
          (ThrownApp {| message := "Image file is required";
                        statusCode := 400 |}))
     = "Image file is required".
Proof.
  exact (proj1 (raised_errors_are_answered_as_raised (num := float) false
                  sample_llm [] CallFails "x" None "/"
                  {| message := "Image file is required"; statusCode := 400 |})
               (or_intror (or_intror eq_refl))).
Defined.

Lemma error_handler_answers_witness :
  api_statusCode
    (errorHandler false
       (ThrownError "TypeError" "name.toLowerCase is not a function" false))
  = 500%Z.
Proof.
  apply (proj2 (error_handler_answers false) "TypeError"
               "name.toLowerCase is not a function" false).
  - intros E. discriminate E.
  - reflexivity.
  - reflexivity.
Defined.


(** X22: the estimate after a failed or rejected inference is one of four
    fixed ones: total 1.81 kg at confidence 0.75 (pizza), 9.64 at 0.8
    (burger), 0.46 at 0.7 (pasta) or 0.56 at 0.5 (generic), under the
    trimmed dish name it was asked for. *)
Theorem fallback_estimates_are_fixed :
  forall (completion : Completion) (d : string),
    rejected (num := float) completion = true ->
    exists e : CarbonEstimate float,
      estimate_dish completion d = Some e
      /\ dish e = d
      /\ In (estimated_carbon_kg e, estimate_confidence e)
            [ (lit 1.81, lit 0.75); (lit 9.64, lit 0.8);
              (lit 0.46, lit 0.7); (lit 0.56, lit 0.5) ].
Proof.
  intros completion d Hr. rewrite (estimate_dish_canned completion d Hr).
  eexists. split; [reflexivity|]. split; [reflexivity|].
  unfold estimate_of. cbn [estimated_carbon_kg estimate_confidence].
  rewrite getFallbackResponse_order.
  destruct (includes (toLowerCase d) "pizza");
    [left; vm_compute; reflexivity|].
  destruct (includes (toLowerCase d) "burger");
    [right; left; vm_compute; reflexivity|].
  destruct (includes (toLowerCase d) "pasta");
    [right; right; left; vm_compute; reflexivity|].
  right. right. right. left. vm_compute. reflexivity.
Qed.

Lemma fallback_estimates_witness :
  exists e : CarbonEstimate float,
    estimate_dish NoContent "Lasagne" = Some e
    /\ dish e = "Lasagne"
    /\ In (estimated_carbon_kg e, estimate_confidence e)
          [ (lit 1.81, lit 0.75); (lit 9.64, lit 0.8);
            (lit 0.46, lit 0.7); (lit 0.56, lit 0.5) ].
Proof.
  apply fallback_estimates_are_fixed. reflexivity.
Defined.


(* ================================================================== *)
(** ** Quantities without a number, responses without ingredients *)

Lemma is_digit_lower_char c : is_digit (lower_char c) = is_digit c.
Proof. destruct c as [[] [] [] [] [] [] [] []]; vm_compute; reflexivity. Qed.

Lemma match_number_no_digit s :
  no_digit s = true -> match_number (toLowerCase s) = None.
Proof.
  unfold no_digit. induction s as [|c s IH]; [reflexivity|].
  cbn [all_chars toLowerCase match_number].
  intros [Hc Hs]%andb_true_iff. apply negb_true_iff in Hc.
  rewrite is_digit_lower_char, Hc. exact (IH Hs).
Qed.

Ltac fixed_mass :=
  cbn [In]; repeat (first [left; vm_compute; reflexivity | right]).

(** X23: a quantity text without any digit is parsed with the default
    amount 0.1, so that its mass is one of eight fixed values, none above
    0.1 kg: number words are not read ("one cup of rice" is 0.024 kg). *)
Theorem digitless_quantity_has_fixed_mass :
  forall s : string,
    no_digit s = true ->
    In (parseQuantityToKg (num := float) s)
       [ lit 0.1; lit 0.0001; lit 0.0453592; lit 0.00283495; lit 0.024;
         lit 0.0015; lit 0.0005; lit 0.05 ].
Proof.
  intros s Hs. unfold parseQuantityToKg.
  rewrite (match_number_no_digit s Hs).
  set (L := toLowerCase s).
  destruct (includes L "kg") eqn:Hkg; cbn [andb orb negb]; [fixed_mass|].
  destruct (includes L "g") eqn:Hg; cbn [andb orb negb]; [fixed_mass|].
  assert (Hlarge : includes L "large" = false).
  { destruct (includes L "large") eqn:E; [|reflexivity].
    apply includes_large_g in E. congruence. }
  destruct (includes L "lb"); cbn [andb orb negb]; [fixed_mass|].
  destruct (includes L "pound"); cbn [andb orb negb]; [fixed_mass|].
  destruct (includes L "oz"); cbn [andb orb negb]; [fixed_mass|].
  destruct (includes L "ounce"); cbn [andb orb negb]; [fixed_mass|].
  destruct (includes L "cup"); cbn [andb orb negb]; [fixed_mass|].
  destruct (includes L "tbsp"); cbn [andb orb negb]; [fixed_mass|].
  destruct (includes L "tablespoon"); cbn [andb orb negb]; [fixed_mass|].
  destruct (includes L "tsp"); cbn [andb orb negb]; [fixed_mass|].
  destruct (includes L "teaspoon"); cbn [andb orb negb]; [fixed_mass|].
  destruct (includes L "small"); cbn [andb orb negb]; [fixed_mass|].
  destruct (includes L "medium"); cbn [andb orb negb]; [fixed_mass|].
  rewrite Hlarge.
  destruct (includes L "piece"); cbn [andb orb negb]; [fixed_mass|].
  destruct (includes L "item"); cbn [andb orb negb]; fixed_mass.
Qed.

Lemma digitless_quantity_witness :
  In (parseQuantityToKg (num := float) "one cup of rice")
     [ lit 0.1; lit 0.0001; lit 0.0453592; lit 0.00283495; lit 0.024;
       lit 0.0015; lit 0.0005; lit 0.05 ].
Proof.
  apply digitless_quantity_has_fixed_mass. reflexivity.
Defined.

(** X24: a payload with no ingredient and a confidence between 0 and 1
    is accepted, not replaced by a canned response: the dish is estimated
    at 0 kg with an empty breakdown. *)
Theorem empty_ingredient_list_is_accepted :
  forall (c : Q) (d : string),
    PrimFloat.ltb (lit c) (lit 0) = false ->
    PrimFloat.ltb (lit 1) (lit c) = false ->
    analyzeDish (num := float) (Parsed (empty_payload c)) d = empty_payload c
    /\ estimate_dish (num := float) (Parsed (empty_payload c)) d
       = Some {| dish := d;
                 estimated_carbon_kg := lit 0;
                 breakdown := [];
                 estimate_confidence := lit c;
                 methodology :=
                   "LLM ingredient inference + carbon database lookup" |}.
Proof.
  intros c d Hlo Hhi.
  assert (Hv : validateLLMResponse (num := float) (empty_payload c) = Valid).
  { unfold validateLLMResponse, empty_payload, bad_confidence.
    cbn [not_an_object get own_property String.eqb Ascii.eqb Bool.eqb
         lt binary64].
    now rewrite Hlo, Hhi. }
  assert (Ha : analyzeDish (num := float) (Parsed (empty_payload c)) d
               = empty_payload c)
    by (unfold analyzeDish; now rewrite Hv).
  split; [exact Ha|]. unfold estimate_dish. rewrite Ha.
  unfold empty_payload.
  cbn [get own_property String.eqb Ascii.eqb Bool.eqb
       calculateCarbonFootprint_parsed].
  assert (Hzero : getTotalCarbonFootprint (num := float) [] = lit 0)
    by (vm_compute; reflexivity).
  now rewrite Hzero.
Qed.

Lemma empty_ingredient_list_witness :
  analyzeDish (num := float) (Parsed (empty_payload 0.9)) "Water"
  = empty_payload 0.9.
Proof.
  apply (empty_ingredient_list_is_accepted 0.9 "Water"); reflexivity.
Defined.
